(** * RedoQ_ChatV1: crawler, ingestor and chat service, verified against the code

    A shallow embedding of
    - [scraping/flightaware_scraper.py]         (module [Scraper]),
    - [vector-store/vector_database_manager.py] (module [Ingest]),
    - [rag.py] and [app.py]                     (module [Service]),
    preceded by models of the parts of the Python standard library the
    scraper calls ([PyStr], [Urllib]) and followed by the chunker as the
    specification describes it ([Chunker]) and by small worlds to run the
    definitions on ([Examples]).  The properties come after all the
    definitions, one module per source file: [UrllibTheory],
    [ScraperTheory], [IngestTheory], [ServiceTheory].

    Conventions.  A Python [str] is a [string] that holds its UTF-8
    encoding; [len] counts its characters ([PyStr.len]), not its bytes.
    A Python [set] of strings is a [gset string], a [dict] with string keys
    a [gmap string _]; iterating a set is [elements], whose order is fixed
    but unspecified, like Python's.  A Python [int] is a [Z].  [None] is
    [None].  An exception that the code catches is a value of a sum type;
    the [ValueError] of [urllib.parse], which the scraper does not catch, is
    [None] where it is raised and ends the run where it surfaces.
    Libraries outside the repository (requests, BeautifulSoup, LangChain,
    pydantic, the language model) are parameters of the sections that use
    them. *)

From Stdlib Require Import ZArith Ascii String List Lia.
From stdpp Require Import gmap strings list fin_maps.

Local Open Scope string_scope.

(* ===================================================================== *)
(** ** Python string operations used by the code *)
(* ===================================================================== *)

Module PyStr.

(** [c in "..."], on characters. *)
Definition char_in (c : ascii) (cs : list ascii) : bool :=
  existsb (Ascii.eqb c) cs.

(** Truthiness of a [str]: the empty string is falsy. *)
Definition truthy (s : string) : bool :=
  match s with EmptyString => false | String _ _ => true end.

(** [s.startswith(p)]. *)
Fixpoint startswith (p s : string) : bool :=
  match p, s with
  | EmptyString, _ => true
  | String a p', String b s' => Ascii.eqb a b && startswith p' s'
  | String _ _, EmptyString => false
  end.

(** [c in s]. *)
Fixpoint contains (c : ascii) (s : string) : bool :=
  match s with
  | EmptyString => false
  | String a s' => Ascii.eqb a c || contains c s'
  end.

(** The longest prefix of [s] whose characters all fail [stop], and the
    rest of [s] (which starts with a [stop] character, or is empty). *)
Fixpoint break_at (stop : ascii -> bool) (s : string) : string * string :=
  match s with
  | EmptyString => (EmptyString, EmptyString)
  | String a s' =>
      if stop a then (EmptyString, s)
      else let '(pre, post) := break_at stop s' in (String a pre, post)
  end.

(** [s.split(c, 1)] when [c in s]: the text before the first [c] and the
    text after it; [None] when [c] does not occur. *)
Definition split_once (c : ascii) (s : string) : option (string * string) :=
  match break_at (Ascii.eqb c) s with
  | (pre, String _ post) => Some (pre, post)
  | (_, EmptyString) => None
  end.

(** [s.split(c)]: all the fields between occurrences of [c]; never empty. *)
Fixpoint split_on (c : ascii) (s : string) : list string :=
  match s with
  | EmptyString => [EmptyString]
  | String a s' =>
      if Ascii.eqb a c then EmptyString :: split_on c s'
      else match split_on c s' with
           | [] => [String a EmptyString]
           | f :: fs => String a f :: fs
           end
  end.

(** [sep.join(parts)]. *)
Fixpoint join (sep : string) (parts : list string) : string :=
  match parts with
  | [] => EmptyString
  | [p] => p
  | p :: ps => p ++ sep ++ join sep ps
  end.

(** A byte [10xxxxxx], which continues a character of several bytes. *)
Definition is_continuation (b : ascii) : bool :=
  let n := nat_of_ascii b in Nat.leb 128 n && Nat.leb n 191.

(** [len(s)]: the number of characters, that is of bytes that start one. *)
Fixpoint len (s : string) : nat :=
  match s with
  | EmptyString => 0
  | String b s' => if is_continuation b then len s' else S (len s')
  end.

(** The characters of [s], each as the text of its bytes.  [cur] holds the
    bytes read of the character at hand. *)
Fixpoint chars_aux (cur : string) (s : string) : list string :=
  let flush := if truthy cur then [cur] else [] in
  match s with
  | EmptyString => flush
  | String b s' =>
      if is_continuation b then chars_aux (cur ++ String b EmptyString) s'
      else (flush ++ chars_aux (String b EmptyString) s')%list
  end.

Definition chars (s : string) : list string := chars_aux EmptyString s.

(** The text with the given bytes. *)
Definition of_bytes (bytes : list nat) : string :=
  string_of_list_ascii (map ascii_of_nat bytes).

(** The white space outside ASCII: U+0085, U+00A0, U+1680, U+2000 to
    U+200A, U+2028, U+2029, U+202F, U+205F and U+3000, in UTF-8. *)
Definition unicode_spaces : list string :=
  map of_bytes
      [[194; 133]; [194; 160]; [225; 154; 128];
       [226; 128; 128]; [226; 128; 129]; [226; 128; 130]; [226; 128; 131];
       [226; 128; 132]; [226; 128; 133]; [226; 128; 134]; [226; 128; 135];
       [226; 128; 136]; [226; 128; 137]; [226; 128; 138];
       [226; 128; 168]; [226; 128; 169]; [226; 128; 175];
       [226; 129; 159]; [227; 128; 128]].

(** [c.isspace()] for one character: tab, LF, VT, FF, CR, the four
    separators 0x1c-0x1f and the space, or one of [unicode_spaces]. *)
Definition isspace (c : string) : bool :=
  match c with
  | String b EmptyString =>
      let n := nat_of_ascii b in
      (Nat.leb 9 n && Nat.leb n 13) || (Nat.leb 28 n && Nat.leb n 32)
  | _ => existsb (String.eqb c) unicode_spaces
  end.

(** [s.split()] with no argument, on the characters of [s]: the maximal
    runs of characters that are not white space.  [cur] is the run being
    read. *)
Fixpoint split_ws_aux (cur : string) (cs : list string) : list string :=
  let flush := if truthy cur then [cur] else [] in
  match cs with
  | [] => flush
  | c :: cs' =>
      if isspace c then (flush ++ split_ws_aux EmptyString cs')%list
      else split_ws_aux (cur ++ c) cs'
  end.

Definition split_ws (s : string) : list string :=
  split_ws_aux EmptyString (chars s).

(** [s.lower()] on the ASCII range; it is applied to schemes, which are
    made of ASCII characters. *)
Definition lower_char (c : ascii) : ascii :=
  let n := nat_of_ascii c in
  if Nat.leb 65 n && Nat.leb n 90 then ascii_of_nat (n + 32) else c.

Fixpoint lower (s : string) : string :=
  match s with
  | EmptyString => EmptyString
  | String a s' => String (lower_char a) (lower s')
  end.

Fixpoint forallb_str (p : ascii -> bool) (s : string) : bool :=
  match s with
  | EmptyString => true
  | String a s' => p a && forallb_str p s'
  end.

Fixpoint filter_str (p : ascii -> bool) (s : string) : string :=
  match s with
  | EmptyString => EmptyString
  | String a s' => if p a then String a (filter_str p s') else filter_str p s'
  end.

(** [s.lstrip(chars)]. *)
Fixpoint lstrip (p : ascii -> bool) (s : string) : string :=
  match s with
  | EmptyString => EmptyString
  | String a s' => if p a then lstrip p s' else s
  end.

(** [x in names], on strings. *)
Definition str_in (x : string) (names : list string) : bool :=
  existsb (String.eqb x) names.

End PyStr.

(* ===================================================================== *)
(** ** [urllib.parse]: the two functions the scraper imports

    [urlparse] and [urljoin] belong to the Python standard library, not to
    the repository.  Both can raise [ValueError], which is [None] here.
    They are written after CPython's [Lib/urllib/parse.py] (3.11), branch
    by branch: [urlsplit] raises on a host with one square bracket and not
    the other; on a host with both brackets it raises or not as
    [_check_bracketed_host] decides, and on a host with a character outside
    ASCII as the normalisation in [_checknetloc] decides: these two tests
    run through [ipaddress] and [unicodedata] and are parameters of the
    model.  The scraper itself is stated over any pair of functions of these
    types (class [Urllib.Lib]); the instances [Urllib.CPython.lib] serve to
    run it. *)
(* ===================================================================== *)

Module Urllib.

Import PyStr.

Record ParseResult := {
  scheme : string;
  netloc : string;
  path : string;
  params : string;
  query : string;
  fragment : string
}.

(** The two characters that open a query and a fragment. *)
Definition opens_query_or_fragment (c : ascii) : Prop :=
  c = "?"%char ∨ c = "#"%char.

(** What the scraper imports: [from urllib.parse import urljoin, urlparse];
    [None] is [ValueError]. *)
Class Lib := {
  urlparse : string -> option ParseResult;
  urljoin : string -> string -> option string
}.

Module CPython.

Section WithChecks.

(** [_check_bracketed_host(hostname)] returns ([true]) or raises
    ([false]): the text between the brackets must be an IPv6 or an IPvFuture
    address, which [ipaddress] decides. *)
Variable bracketed_host_ok : string -> bool.

(** The part of [_checknetloc(netloc)] that runs when [netloc] has a
    character outside ASCII: it returns ([true]) unless the NFKC form of the
    host, which [unicodedata] computes, holds one of [/?#@:]. *)
Variable nfkc_ok : string -> bool.

Definition uses_relative : list string :=
  [""; "ftp"; "http"; "gopher"; "nntp"; "imap"; "wais"; "file"; "https";
   "shttp"; "mms"; "prospero"; "rtsp"; "rtspu"; "sftp"; "svn"; "svn+ssh";
   "ws"; "wss"].

Definition uses_netloc : list string :=
  [""; "ftp"; "http"; "gopher"; "nntp"; "telnet"; "imap"; "wais"; "file";
   "mms"; "https"; "shttp"; "snews"; "prospero"; "rtsp"; "rtspu"; "rsync";
   "svn"; "svn+ssh"; "sftp"; "nfs"; "git"; "git+ssh"; "ws"; "wss"].

Definition uses_params : list string :=
  [""; "ftp"; "hdl"; "prospero"; "http"; "imap"; "https"; "shttp"; "rtsp";
   "rtspu"; "sip"; "sips"; "mms"; "sftp"; "tel"].

Definition is_alpha (c : ascii) : bool :=
  let n := nat_of_ascii c in
  (Nat.leb 65 n && Nat.leb n 90) || (Nat.leb 97 n && Nat.leb n 122).

Definition is_digit (c : ascii) : bool :=
  let n := nat_of_ascii c in Nat.leb 48 n && Nat.leb n 57.

(** [scheme_chars]: letters, digits and [+-.]. *)
Definition scheme_char (c : ascii) : bool :=
  is_alpha c || is_digit c || char_in c ["+"; "-"; "."]%char.

(** [_WHATWG_C0_CONTROL_OR_SPACE]: the characters up to the space. *)
Definition c0_or_space (c : ascii) : bool := Nat.leb (nat_of_ascii c) 32.

(** [_UNSAFE_URL_BYTES_TO_REMOVE]: tab, CR, LF. *)
Definition unsafe_byte (c : ascii) : bool :=
  let n := nat_of_ascii c in Nat.eqb n 9 || Nat.eqb n 10 || Nat.eqb n 13.

Definition is_colon (c : ascii) : bool := Ascii.eqb c ":"%char.

(** The scheme part of [urlsplit]: with [i = url.find(':')], when [i > 0],
    [url[0]] is a letter and [url[:i]] consists of scheme characters, the
    scheme is [url[:i].lower()] and the url continues after the colon. *)
Definition split_scheme (default : string) (url : string) : string * string :=
  match break_at is_colon url with
  | (String a pre, String _ rest) =>
      if is_alpha a && forallb_str scheme_char (String a pre)
      then (lower (String a pre), rest)
      else (default, url)
  | _ => (default, url)
  end.

(** [if url[:2] == '//': netloc, url = _splitnetloc(url, 2)]: the host part
    runs up to the first of [/ ? #]. *)
Definition split_netloc (url : string) : string * string :=
  match url with
  | String a (String b rest) =>
      if Ascii.eqb a "/" && Ascii.eqb b "/"
      then break_at (fun c => char_in c ["/"; "?"; "#"]%char) rest
      else (EmptyString, url)
  | _ => (EmptyString, url)
  end.

(** [netloc.partition('[')[2]]. *)
Definition after_open_bracket (netloc : string) : string :=
  match snd (break_at (Ascii.eqb "[") netloc) with
  | String _ rest => rest
  | EmptyString => EmptyString
  end.

(** The two tests on the brackets of the host, the second on
    [netloc.partition('[')[2].partition(']')[0]]: [false] is the
    [ValueError]. *)
Definition brackets_ok (netloc : string) : bool :=
  let opens := contains "[" netloc in
  let closes := contains "]" netloc in
  if (opens && negb closes) || (closes && negb opens) then false
  else if opens && closes
  then bracketed_host_ok (break_at (Ascii.eqb "]") (after_open_bracket netloc)).1
  else true.

(** [_checknetloc(netloc)]: [false] is the [ValueError]. *)
Definition checknetloc (netloc : string) : bool :=
  if negb (truthy netloc)
     || forallb_str (fun c => Nat.ltb (nat_of_ascii c) 128) netloc
  then true
  else nfkc_ok netloc.

(** [urlsplit(url, scheme=default)].  The default scheme is stripped of
    blanks in the original; it is here the empty text or a scheme that
    [urlsplit] returned, which has none.  The tests on the brackets are
    made when the url starts with [//], which is when the host is not
    empty or [//] is followed by one of [/?#]. *)
Definition urlsplit (url default : string)
  : option (string * string * string * string * string) :=
  let url := lstrip c0_or_space url in
  let default := filter_str (fun c => negb (unsafe_byte c)) default in
  let url := filter_str (fun c => negb (unsafe_byte c)) url in
  let '(scheme, url) := split_scheme default url in
  let '(netloc, url) := split_netloc url in
  if negb (brackets_ok netloc) then None
  else
    let '(url, fragment) :=
      match split_once "#" url with
      | Some (u, f) => (u, f)
      | None => (url, EmptyString)
      end in
    let '(url, query) :=
      match split_once "?" url with
      | Some (u, q) => (u, q)
      | None => (url, EmptyString)
      end in
    if negb (checknetloc netloc) then None
    else Some (scheme, netloc, url, query, fragment).

(** [_splitparams]: the parameters follow the first [;] of the last path
    segment. *)
Definition splitparams (url : string) : string * string :=
  let segs := split_on "/" url in
  let last_seg := List.last segs EmptyString in
  match split_once ";" last_seg with
  | None => (url, EmptyString)
  | Some (seg, prm) =>
      (join "/" (List.removelast segs ++ [seg])%list, prm)
  end.

(** [urlparse(url, scheme=default)]. *)
Definition urlparse_with (url default : string) : option ParseResult :=
  match urlsplit url default with
  | None => None
  | Some (scheme, netloc, url, query, fragment) =>
      let '(url, params) :=
        if str_in scheme uses_params && contains ";" url
        then splitparams url
        else (url, EmptyString) in
      Some {| scheme := scheme; netloc := netloc; path := url;
              params := params; query := query; fragment := fragment |}
  end.

(** [urlparse(url)]. *)
Definition urlparse (url : string) : option ParseResult :=
  urlparse_with url EmptyString.

Definition urlunsplit (scheme netloc url query fragment : string) : string :=
  let url :=
    if truthy netloc
       || (truthy scheme && str_in scheme uses_netloc
           && negb (startswith "//" url))
    then
      let url := if truthy url && negb (startswith "/" url)
                 then "/" ++ url else url in
      "//" ++ netloc ++ url
    else url in
  let url := if truthy scheme then scheme ++ ":" ++ url else url in
  let url := if truthy query then url ++ "?" ++ query else url in
  if truthy fragment then url ++ "#" ++ fragment else url.

Definition urlunparse (p : ParseResult) : string :=
  let url := if truthy (params p) then path p ++ ";" ++ params p
             else path p in
  urlunsplit (scheme p) (netloc p) url (query p) (fragment p).

(** The segment loop of [urljoin]: [..] pops (ignored on an empty stack),
    [.] is dropped, anything else is pushed. *)
Fixpoint resolve_segments (stack : list string) (segments : list string)
  : list string :=
  match segments with
  | [] => stack
  | seg :: rest =>
      if String.eqb seg ".." then resolve_segments (List.removelast stack) rest
      else if String.eqb seg "." then resolve_segments stack rest
      else resolve_segments (stack ++ [seg])%list rest
  end.

(** [segments[1:-1] = filter(None, segments[1:-1])]. *)
Definition drop_inner_empty (segments : list string) : list string :=
  match segments with
  | [] => []
  | [s] => [s]
  | s :: rest =>
      (s :: List.filter truthy (List.removelast rest)
         ++ [List.last rest EmptyString])%list
  end.

(** [urljoin(base, url)]: the two calls of [urlparse] come first and may
    raise. *)
Definition urljoin (base url : string) : option string :=
  if negb (truthy base) then Some url
  else if negb (truthy url) then Some base
  else
    match urlparse_with base EmptyString with
    | None => None
    | Some b =>
    match urlparse_with url (scheme b) with
    | None => None
    | Some u =>
    Some (
    if negb (String.eqb (scheme u) (scheme b))
       || negb (str_in (scheme u) uses_relative)
    then url
    else if str_in (scheme u) uses_netloc && truthy (netloc u)
    then urlunparse u
    else
      let netloc' := if str_in (scheme u) uses_netloc then netloc b
                     else netloc u in
      if negb (truthy (path u)) && negb (truthy (params u)) then
        urlunparse {| scheme := scheme u; netloc := netloc';
                      path := path b; params := params b;
                      query := if truthy (query u) then query u else query b;
                      fragment := fragment u |}
      else
        let base_parts := split_on "/" (path b) in
        let base_parts :=
          if String.eqb (List.last base_parts EmptyString) EmptyString
          then base_parts else List.removelast base_parts in
        let segments :=
          if startswith "/" (path u) then split_on "/" (path u)
          else drop_inner_empty (base_parts ++ split_on "/" (path u))%list in
        let resolved := resolve_segments [] segments in
        let resolved :=
          if str_in (List.last segments EmptyString) ["."; ".."]
          then (resolved ++ [EmptyString])%list else resolved in
        let joined := join "/" resolved in
        urlunparse {| scheme := scheme u; netloc := netloc';
                      path := if truthy joined then joined else "/";
                      params := params u; query := query u;
                      fragment := fragment u |})
    end
    end.

End WithChecks.

(** The two functions, for given answers of the two library tests. *)
Definition lib (bracketed_host_ok nfkc_ok : string -> bool) : Lib :=
  Build_Lib (urlparse bracketed_host_ok nfkc_ok)
            (urljoin bracketed_host_ok nfkc_ok).

End CPython.

End Urllib.


(* ===================================================================== *)
(** ** [scraping/flightaware_scraper.py] *)
(* ===================================================================== *)

Module Scraper.

Import PyStr.
Local Open Scope list_scope.

(** A [<meta>] element: its [name], [property] and [content] attributes. *)
Record Meta := {
  meta_name : option string;
  meta_property : option string;
  meta_content : option string
}.

(** What the scraper reads off a parsed page ([BeautifulSoup] object).
    [extract_page_data] runs first and removes the [script], [style],
    [nav], [footer] and [header] elements from the tree; the text, meta
    tags, tables and anchors below are those of the tree after that
    removal, the title is found before it.
    - [soup_title]: [soup.find('title').get_text(strip=True)], [None]
      when the page has no title element;
    - [soup_text]: [soup.get_text(separator=' ', strip=True)];
    - [soup_metas]: [soup.find_all('meta')];
    - [soup_tables]: for each table, for each of its rows, the stripped
      text of its [td]/[th] cells;
    - [soup_hrefs]: [anchor['href']] for [soup.find_all('a', href=True)]. *)
Record Soup := {
  soup_title : option string;
  soup_text : string;
  soup_metas : list Meta;
  soup_tables : list (list (list string));
  soup_hrefs : list string
}.

(** The dictionary built by [extract_page_data]; [flight_info] is the
    optional key. *)
Record PageRecord := {
  url : string;
  title : string;
  content : string;
  metadata : gmap string string;
  flight_info : option (gmap string string)
}.

(** [requests.RequestException], raised by [session.get(url, timeout=10)]
    or by [response.raise_for_status()]: the one kind of exception that
    [get_page_content] catches. *)
Inductive RequestException :=
| Timeout
| ConnectionError
| HTTPError (status : Z)
| OtherRequestException (msg : string).

(** What a run of the scraper does to the outside, in order. *)
Inductive Effect :=
| Get (url : string)      (* [self.session.get(url, timeout=10)] *)
| Sleep (seconds : Z).    (* [time.sleep(seconds)] *)

(** The fields of [self] that [scrape] reads and writes. *)
Record Scraper := {
  base_urls : list string;
  max_pages : Z;
  visited_urls : gset string;
  scraped_data : list PageRecord
}.

(** The [base_urls] argument of the constructor: absent ([None], the
    default), a list, or a single value that is not a list. *)
Inductive BaseUrls :=
| NoUrls
| UrlList (urls : list string)
| OneUrl (url : string).

(** [FlightAwareScraper.__init__]. *)
Definition init (base_urls : BaseUrls) (max_pages : Z) : Scraper :=
  {| base_urls := match base_urls with
                  | NoUrls => ["https://www.flightaware.com/"]
                  | UrlList l => l
                  | OneUrl u => [u]
                  end;
     max_pages := max_pages;
     visited_urls := ∅;
     scraped_data := [] |}.

(** The state of the [while] loop of [scrape]: [self], the deque and the
    effects so far. *)
Record Loop := {
  self : Scraper;
  urls_to_visit : list string;
  effects : list Effect
}.

Section WithWorld.

Context {urllib : Urllib.Lib}.

(** The web: what fetching and parsing a URL gives, or the exception.  The
    answer may depend on what the run has done so far. *)
Variable http_get : list Effect -> string -> RequestException + Soup.

(** [None] where [urlparse] raises [ValueError], here and below. *)
Definition is_valid_url (url : string) : option bool :=
  parsed ← Urllib.urlparse url;
  Some (String.eqb (Urllib.netloc parsed) "www.flightaware.com"
        || String.eqb (Urllib.netloc parsed) "flightaware.com").

(** [None] after the exception is logged; [done] is what the run has done
    before this call. *)
Definition get_page_content (done : list Effect) (url : string) : option Soup :=
  match http_get done url with
  | inr soup => Some soup
  | inl _ => None
  end.

(** [f"{parsed.scheme}://{parsed.netloc}{parsed.path}"]. *)
Definition clean_url (absolute_url : string) : option string :=
  parsed ← Urllib.urlparse absolute_url;
  Some (Urllib.scheme parsed ++ "://" ++ Urllib.netloc parsed
          ++ Urllib.path parsed)%string.

(** The body of the [for anchor in ...] loop: the set [links] after it, or
    [None] when [urljoin] or one of the two [urlparse] raises. *)
Definition add_link (visited : gset string) (current_url : string)
    (links : gset string) (href : string) : option (gset string) :=
  absolute_url ← Urllib.urljoin current_url href;
  clean ← clean_url absolute_url;
  valid ← is_valid_url clean;
  Some (if valid && bool_decide (clean ∉ visited)
        then {[clean]} ∪ links
        else links).

(** The [for] loop over the anchors, which the first [ValueError] leaves. *)
Fixpoint add_links (visited : gset string) (current_url : string)
    (hrefs : list string) (links : gset string) : option (gset string) :=
  match hrefs with
  | [] => Some links
  | href :: rest =>
      links' ← add_link visited current_url links href;
      add_links visited current_url rest links'
  end.

(** [extract_links]: the set returned, or [None] for the [ValueError]
    that leaves it; nothing in the function or in its caller catches it. *)
Definition extract_links (visited : gset string) (soup : option Soup)
    (current_url : string) : option (gset string) :=
  match soup with
  | None => Some ∅
  | Some soup => add_links visited current_url (soup_hrefs soup) ∅
  end.

(** [meta.get(key)] is truthy. *)
Definition attr_truthy (a : option string) : option string :=
  match a with
  | Some v => if truthy v then Some v else None
  | None => None
  end.

Definition add_meta (md : gmap string string) (meta : Meta)
  : gmap string string :=
  let value := default "" (meta_content meta) in
  match attr_truthy (meta_name meta) with
  | Some name => <[name := value]> md
  | None =>
      match attr_truthy (meta_property meta) with
      | Some property => <[property := value]> md
      | None => md
      end
  end.

Definition add_row (info : gmap string string) (cells : list string)
  : gmap string string :=
  match cells with
  | key :: value :: _ =>
      if truthy key && truthy value then <[key := value]> info else info
  | _ => info
  end.

Definition dict_truthy (d : gmap string string) : bool :=
  negb (bool_decide (d = ∅)).

(** [None] is the empty dictionary [{}]. *)
Definition extract_page_data (soup : option Soup) (url : string)
  : option PageRecord :=
  match soup with
  | None => None
  | Some soup =>
      let flight_info :=
        fold_left (fun info table => fold_left add_row table info)
                  (soup_tables soup) ∅ in
      Some {| url := url;
              title := default "" (soup_title soup);
              content := join " " (split_ws (soup_text soup));
              metadata := fold_left add_meta (soup_metas soup) ∅;
              flight_info := if dict_truthy flight_info
                             then Some flight_info else None |}
  end.

(** [if page_data.get('content')]. *)
Definition has_content (page_data : option PageRecord) : bool :=
  match page_data with
  | Some d => truthy (content d)
  | None => false
  end.

Definition with_visited (s : Scraper) (v : gset string) : Scraper :=
  {| base_urls := base_urls s; max_pages := max_pages s;
     visited_urls := v; scraped_data := scraped_data s |}.

Definition with_scraped (s : Scraper) (d : list PageRecord) : Scraper :=
  {| base_urls := base_urls s; max_pages := max_pages s;
     visited_urls := visited_urls s; scraped_data := d |}.

(** How an iteration, or the loop, ends: normally, or with the
    [ValueError] that [extract_links] let through, which leaves [scrape].
    The state is [self], the deque and the effects at that point. *)
Inductive Outcome :=
| Normal (st : Loop)
| ValueError (st : Loop).

Definition state (o : Outcome) : Loop :=
  match o with Normal st | ValueError st => st end.

(** One pass through the body of the [while] loop, after
    [current_url = urls_to_visit.popleft()] has left [rest].  When
    [extract_links] raises, the URL is visited and fetched, its record is
    kept if it has a text, nothing is queued and there is no sleep. *)
Definition loop_body (st : Loop) (current_url : string) (rest : list string)
  : Outcome :=
  if bool_decide (current_url ∈ visited_urls (self st)) then
    (* continue *)
    Normal {| self := self st; urls_to_visit := rest; effects := effects st |}
  else
    let s1 := with_visited (self st) ({[current_url]} ∪ visited_urls (self st)) in
    let soup := get_page_content (effects st) current_url in
    match soup with
    | Some _ =>
        let page_data := extract_page_data soup current_url in
        let s2 :=
          match page_data with
          | Some d =>
              if has_content page_data
              then with_scraped s1 (scraped_data s1 ++ [d])
              else s1
          | None => s1
          end in
        match extract_links (visited_urls s2) soup current_url with
        | Some new_links =>
            Normal {| self := s2; urls_to_visit := rest ++ elements new_links;
                      effects := effects st ++ [Get current_url; Sleep 1] |}
        | None =>
            ValueError {| self := s2; urls_to_visit := rest;
                          effects := effects st ++ [Get current_url] |}
        end
    | None =>
        Normal {| self := s1; urls_to_visit := rest;
                  effects := effects st ++ [Get current_url; Sleep 1] |}
    end.

(** [while urls_to_visit and len(self.visited_urls) < self.max_pages]. *)
Definition loop_guard (st : Loop) : bool :=
  negb (bool_decide (urls_to_visit st = []))
  && bool_decide (Z.of_nat (size (visited_urls (self st))) < max_pages (self st))%Z.

(** One iteration, when the guard holds. *)
Definition step (st : Loop) : option Outcome :=
  match urls_to_visit st with
  | current_url :: rest =>
      if loop_guard st then Some (loop_body st current_url rest) else None
  | [] => None
  end.

(** The [while] loop, cut after [fuel] iterations: [None] when the loop
    has not ended by then, else how it ended. *)
Fixpoint while_loop (fuel : nat) (st : Loop) : option Outcome :=
  match step st with
  | None => Some (Normal st)
  | Some (ValueError st') => Some (ValueError st')
  | Some (Normal st') =>
      match fuel with
      | O => None
      | S n => while_loop n st'
      end
  end.

(** The state after exactly [k] iterations, when the loop makes that
    many and none of them raises. *)
Fixpoint steps (k : nat) (st : Loop) : option Loop :=
  match k with
  | O => Some st
  | S k' =>
      match step st with
      | Some (Normal st') => steps k' st'
      | _ => None
      end
  end.

(** [urls_to_visit = deque(self.base_urls)]. *)
Definition start (s : Scraper) : Loop :=
  {| self := s; urls_to_visit := base_urls s; effects := [] |}.

(** [scraper.scrape()]: the loop from [start].  When it ends normally the
    value returned is [scraped_data] of the final state; when it ends with
    [ValueError] nothing is returned and [self] is as the state says. *)
Definition scrape (fuel : nat) (s : Scraper) : option Outcome :=
  while_loop fuel (start s).

(** The URLs fetched, in order. *)
Definition fetched (es : list Effect) : list string :=
  flat_map (fun e => match e with Get u => [u] | Sleep _ => [] end) es.

(** A URL as [extract_links] builds it: the scheme, host and path of some
    resolved [href], with a host that [is_valid_url] accepts. *)
Definition is_link (u : string) : Prop :=
  ∃ current_url href absolute_url,
    Urllib.urljoin current_url href = Some absolute_url
    ∧ clean_url absolute_url = Some u
    ∧ is_valid_url u = Some true.

End WithWorld.

End Scraper.

(* ===================================================================== *)
(** ** [vector-store/vector_database_manager.py] *)
(* ===================================================================== *)

Module Ingest.

Import PyStr.
Local Open Scope list_scope.

(** A value of the metadata dictionary of a document: text, or the
    integer [record_index]. *)
Inductive MetaValue :=
| MStr (s : string)
| MInt (n : Z).

(** [langchain_core.documents.Document]. *)
Record Document := {
  page_content : string;
  metadata : gmap string MetaValue
}.

(** One object of the JSON array read by [load_json_data]; a key that is
    absent is [None].  The values are those the scraper writes: text for
    [url], [title], [content], a dictionary of text for [metadata]. *)
Record Item := {
  item_url : option string;
  item_title : option string;
  item_content : option string;
  item_metadata : option (gmap string string)
}.

(** The record as the scraper persists it. *)
Definition of_page_record (r : Scraper.PageRecord) : Item :=
  {| item_url := Some (Scraper.url r);
     item_title := Some (Scraper.title r);
     item_content := Some (Scraper.content r);
     item_metadata := Some (Scraper.metadata r) |}.

(** The fields of [self] that [json_to_documents] reads;
    [json_file_name] is [self.json_file.name]. *)
Record Manager := {
  json_file_name : string;
  index_name : string;
  embedding_model : string
}.

(** The threshold of [json_to_documents], also the [chunk_size] given to
    the splitter in [__init__]. *)
Definition chunk_size : nat := 1000.

Definition newline : string := String (ascii_of_nat 10) EmptyString.

Section WithSplitter.

(** [self.text_splitter.split_text]: LangChain's
    [RecursiveCharacterTextSplitter] with [chunk_size=1000],
    [chunk_overlap=200], [length_function=len] and the separators
    blank line, newline, space and the empty string; a library outside
    the repository. *)
Variable split_text : string -> list string.

(** [TextSplitter.split_documents]: every piece of a document's text
    becomes a document with a copy of that document's metadata. *)
Definition split_documents (docs : list Document) : list Document :=
  flat_map
    (fun d => map (fun chunk => {| page_content := chunk;
                                   metadata := metadata d |})
                  (split_text (page_content d)))
    docs.

Variable mgr : Manager.

(** The f-string of [full_content]: the title and the content, each
    after its label, with a blank line between them. *)
Definition full_content (item : Item) : string :=
  let title := default "Unknown" (item_title item) in
  let content := default "" (item_content item) in
  ("Title: " ++ title ++ newline ++ newline ++ "Content: " ++ content)%string.

Definition dict_truthy (d : gmap string string) : bool :=
  negb (bool_decide (d = ∅)).

Definition doc_metadata (idx : nat) (item : Item) : gmap string MetaValue :=
  let url := default "Unknown" (item_url item) in
  let title := default "Unknown" (item_title item) in
  let metadata_dict := default ∅ (item_metadata item) in
  let doc_metadata : gmap string MetaValue :=
    <["index_name" := MStr (index_name mgr)]>
    (<["record_index" := MInt (Z.of_nat idx)]>
    (<["title" := MStr title]>
    (<["url" := MStr url]>
    (<["file_type" := MStr "json"]>
    (<["source" := MStr (json_file_name mgr)]> ∅))))) in
  if dict_truthy metadata_dict then
    <["og_title" := MStr (default "" (metadata_dict !! "og:title"))]>
    (<["description" := MStr (default "" (metadata_dict !! "description"))]>
     doc_metadata)
  else doc_metadata.

(** The body of the [for idx, item in enumerate(json_data)] loop: the
    documents it adds to [documents]. *)
Definition item_documents (idx : nat) (item : Item) : list Document :=
  let doc := {| page_content := full_content item;
                metadata := doc_metadata idx item |} in
  if Nat.ltb chunk_size (PyStr.len (full_content item))
  then split_documents [doc]
  else [doc].

Definition json_to_documents (json_data : list Item) : list Document :=
  concat (imap item_documents json_data).

End WithSplitter.

End Ingest.

(* ===================================================================== *)
(** ** The chunker of the specification *)
(* ===================================================================== *)

Module Chunker.

Import PyStr.
Local Open Scope list_scope.

Section WithLongTexts.

(** What the chunker makes of a text longer than [max_size], from
    [max_size], [overlap], the separators and the text: pieces cut at the
    separators in their order of priority, adjacent pieces overlapping.  It
    plays no part for a text at or under [max_size] and is left open. *)
Variable split_long : nat -> nat -> list string -> string -> list string.

(** Modelled from the spec: the chunker [split(text, max_size, overlap,
    separators)], which the ingestor takes from LangChain
    ([RecursiveCharacterTextSplitter]) and whose code is not in the
    repository.  In the specification's words: a text at or under
    [max_size] is returned as a single-element sequence unchanged; a longer
    text is split. *)
Definition split (text : string) (max_size overlap : nat)
    (separators : list string) : list string :=
  if Nat.leb (len text) max_size then [text]
  else split_long max_size overlap separators text.

(** The chunker as [JSONPineconeManager.__init__] configures it:
    [chunk_size=1000], [chunk_overlap=200] and the separators blank line,
    newline, space and the empty text. *)
Definition split_text (text : string) : list string :=
  split text Ingest.chunk_size 200
        [(Ingest.newline ++ Ingest.newline)%string; Ingest.newline; " "; ""].

End WithLongTexts.

End Chunker.

(* ===================================================================== *)
(** ** [rag.py] and [app.py] *)
(* ===================================================================== *)

Module Service.

Import PyStr.
Local Open Scope list_scope.

(** The [content] of a LangChain message: text, or a list of blocks. *)
Inductive Content :=
| Text (s : string)
| Blocks (parts : list string).

(** A message of the conversation: its [type] ("human", "ai", "tool",
    "system") and its [content]. *)
Record Message := {
  msg_type : string;
  msg_content : Content
}.

(** The module-level state of the two files: [system_initialized] of
    [app.py], the [MemorySaver] checkpointer of [rag.py] as a map from
    thread identifier to message history, and what was printed. *)
Record World := {
  system_initialized : bool;
  memory_saver : gmap string (list Message);
  stdout : list string
}.

(** Statements that read and write the module-level state. *)
Definition Py (A : Type) : Type := World -> A * World.

Definition ret {A} (a : A) : Py A := fun w => (a, w).

Definition bind {A B} (m : Py A) (k : A -> Py B) : Py B :=
  fun w => let '(a, w') := m w in k a w'.

Definition print (line : string) : Py unit :=
  fun w => (tt, {| system_initialized := system_initialized w;
                   memory_saver := memory_saver w;
                   stdout := stdout w ++ [line] |}).

Definition set_system_initialized (b : bool) : Py unit :=
  fun w => (tt, {| system_initialized := b;
                   memory_saver := memory_saver w;
                   stdout := stdout w |}).

Definition get_system_initialized : Py bool :=
  fun w => (system_initialized w, w).

(** [get_user_config(user_id)["configurable"]["thread_id"]]. *)
Definition thread_id (user_id : string) : string :=
  ("user_" ++ user_id)%string.

(** The history the checkpointer holds for a user. *)
Definition history (w : World) (user_id : string) : list Message :=
  default [] (memory_saver w !! thread_id user_id).

(** [clear_conversation]: one [print]; the comment that follows it in the
    source is the whole of the rest of the body. *)
Definition clear_conversation (user_id : string) : Py unit :=
  print ("🧹 Cleared conversation memory for user: " ++ user_id)%string.

(** [needle in haystack]. *)
Fixpoint substring_in (needle haystack : string) : bool :=
  startswith needle haystack
  || match haystack with
     | EmptyString => false
     | String _ rest => substring_in needle rest
     end.

(** The dictionary returned by [get_response]. *)
Record ResponseData := {
  rd_user_id : string;
  rd_query : string;
  rd_response : Content;
  rd_mode : string;
  rd_data_source : string;
  rd_timestamp : Z;
  rd_status_code : Z;
  rd_error : option string
}.

(** The three fixed texts of [get_response]. *)
Definition stream_failure_text : string :=
  "I'm experiencing some technical difficulties. Please try again or rephrase your question.".

Definition no_response_text : string :=
  "I'm here to help, but I'm having trouble processing your message right now. Could you please try rephrasing your question?".

Definition apology_text : string :=
  "I apologize, but I encountered an error while processing your message. Please try again. If the problem persists, please contact support.".

(** [ChatRequest] of [app.py]. *)
Record ChatRequest := {
  req_user_id : string;
  req_query : string;
  req_use_agent : bool
}.

(** [ChatResponse] of [app.py]: every field is checked against its type
    when the object is built. *)
Record ChatResponse := {
  user_id : string;
  query : string;
  response : string;
  mode : string;
  data_source : option string;
  source_urls : list string;
  timestamp : Z;
  error : option string;
  status_code : Z
}.

(** What the client of [POST /chat] receives: the response model, or the
    status and detail of an [HTTPException]. *)
Inductive HttpResponse :=
| Ok (body : ChatResponse)
| HttpError (status : Z) (detail : string).

(** An event of a stream: its ["messages"] entry, [None] when the key is
    absent. *)
Definition Event : Type := option (list Message).

Section WithCollaborators.

(** [list(agent_executor.stream(...))] when [use_agent], else
    [list(conversational_graph.stream(...))], for a message and a thread:
    the events, or the text [str(e)] of the exception raised. *)
Variable stream : bool -> string -> string -> string + list Event.

(** [time.time()]. *)
Variable now : Z.

(** [str(msg.content)]. *)
Variable content_str : Content -> string.

(** [str(e)] of the [ValidationError] that building a [ChatResponse]
    raises on a dictionary whose [response] is not text. *)
Variable validation_error : ResponseData -> string.

Definition content_truthy (c : Content) : bool :=
  match c with
  | Text s => truthy s
  | Blocks parts => negb (bool_decide (parts = []))
  end.

(** The last message of the last event, when it has messages, and
    [last_event.get("messages", [])]. *)
Definition last_messages (events : list Event) : list Message :=
  match List.last events None with
  | Some msgs => msgs
  | None => []
  end.

Definition last_content (events : list Event) : option Content :=
  match List.last (last_messages events) {| msg_type := ""; msg_content := Text "" |},
        last_messages events with
  | _, [] => None
  | m, _ => Some (msg_content m)
  end.

(** The scan of the tool messages for the two markers. *)
Definition data_sources_used (all_messages : list Message) : bool * bool :=
  fold_left
    (fun '(json, pdf) msg =>
       if String.eqb (msg_type msg) "tool" && content_truthy (msg_content msg)
       then
         let content := content_str (msg_content msg) in
         (json || substring_in "Data Source: JSON" content,
          pdf || substring_in "Data Source: PDF" content)
       else (json, pdf))
    all_messages (false, false).

Definition data_source_name (used : bool * bool) : string :=
  match used with
  | (true, true) => "both"
  | (true, false) => "json"
  | (false, true) => "pdf"
  | (false, false) => "none"
  end.

(** The body of the outer [try] of [get_response]: [inl] would be an
    exception escaping it. *)
Definition get_response_try (message user_id : string) (use_agent : bool)
  : string + ResponseData :=
  let mode := if use_agent then "agent" else "assistant" in
  match stream use_agent message (thread_id user_id) with
  | inl stream_error =>
      inr {| rd_user_id := user_id; rd_query := message;
             rd_response := Text stream_failure_text;
             rd_mode := mode; rd_data_source := "none";
             rd_timestamp := now; rd_status_code := 500;
             rd_error := None |}
  | inr events =>
      let response := default (Text "") (last_content events) in
      let all_messages := last_messages events in
      let source := data_source_name (data_sources_used all_messages) in
      if content_truthy response then
        inr {| rd_user_id := user_id; rd_query := message;
               rd_response := response;
               rd_mode := mode; rd_data_source := source;
               rd_timestamp := now; rd_status_code := 200;
               rd_error := None |}
      else
        inr {| rd_user_id := user_id; rd_query := message;
               rd_response := Text no_response_text;
               rd_mode := mode; rd_data_source := "none";
               rd_timestamp := now; rd_status_code := 200;
               rd_error := None |}
  end.

(** The [except Exception as e] clause that closes [get_response]. *)
Definition get_response_except (message user_id : string) (e : string)
  : ResponseData :=
  {| rd_user_id := user_id; rd_query := message;
     rd_response := Text apology_text;
     rd_mode := "error"; rd_data_source := "none";
     rd_timestamp := now; rd_status_code := 500;
     rd_error := Some e |}.

Definition get_response (message user_id : string) (use_agent : bool)
  : ResponseData :=
  match get_response_try message user_id use_agent with
  | inr response_data => response_data
  | inl e => get_response_except message user_id e
  end.

(** Building the [ChatResponse] from the keys of [response_data]: the
    text of the validation error when [response] is not a [str]. *)
Definition make_chat_response (d : ResponseData) : string + ChatResponse :=
  match rd_response d with
  | Text s =>
      inr {| user_id := rd_user_id d; query := rd_query d; response := s;
             mode := rd_mode d; data_source := Some (rd_data_source d);
             source_urls := []; timestamp := rd_timestamp d;
             error := rd_error d; status_code := rd_status_code d |}
  | Blocks _ => inl (validation_error d)
  end.

(** [chat_endpoint]. *)
Definition chat_endpoint (request : ChatRequest) : Py HttpResponse :=
  bind get_system_initialized (fun initialized =>
    if negb initialized then
      ret (HttpError 503
             "FlightAware system is not initialized. Please check server logs.")
    else
      let response_data :=
        get_response (req_query request) (req_user_id request)
                     (req_use_agent request) in
      match make_chat_response response_data with
      | inr body => ret (Ok body)
      | inl e =>
          ret (HttpError 500 ("Error processing your message: " ++ e)%string)
      end).

(** The startup half of [lifespan]: [initialize_rag_system()] returns or
    raises [e]; the exception is logged and not raised again. *)
Definition lifespan (initialize_rag_system : string + unit) : Py unit :=
  match initialize_rag_system with
  | inr _ => set_system_initialized true
  | inl e => set_system_initialized false
  end.

(** The exception text of a failed request, if it failed: from the
    stream, from the outer handler, or from building the response. *)
Definition request_error (request : ChatRequest) : option string :=
  match stream (req_use_agent request) (req_query request)
               (thread_id (req_user_id request)) with
  | inl e => Some e
  | inr _ =>
      match get_response_try (req_query request) (req_user_id request)
                             (req_use_agent request) with
      | inl e => Some e
      | inr d =>
          match make_chat_response d with
          | inl e => Some e
          | inr _ => None
          end
      end
  end.

(** Every text of the response that reaches the client. *)
Definition visible_texts (r : HttpResponse) : list string :=
  match r with
  | Ok body => response body :: match error body with
                                | Some e => [e]
                                | None => []
                                end
  | HttpError _ detail => [detail]
  end.

End WithCollaborators.

End Service.

(* ===================================================================== *)
(** ** Small worlds on which the definitions are run *)
(* ===================================================================== *)

Module Examples.

Import Scraper.
Local Open Scope list_scope.

(** A page with a title, a text and anchors, and nothing else. *)
Definition page (text : string) (hrefs : list string) : Soup :=
  {| soup_title := Some "FlightAware";
     soup_text := text;
     soup_metas := [];
     soup_tables := [];
     soup_hrefs := hrefs |}.

(** The page served at the default seed: a relative link, a link to the
    same site without [www], a link to another site, and a link back to the
    relative one with a fragment. *)
Definition home : Soup :=
  page "Live  flight tracking"
       ["/live/"; "https://flightaware.com/about?x=1#team";
        "https://example.org/"; "/live/#top"].

(** A web of three pages: [home], a page without text, and a page that is
    reached through a query string; every other URL times out. *)
Definition web (done : list Effect) (u : string) : RequestException + Soup :=
  if String.eqb u "https://www.flightaware.com/" then inr home
  else if String.eqb u "https://www.flightaware.com/live/" then inr (page "   " ["/"])
  else if String.eqb u "https://www.flightaware.com/live/map?airline=UAL#top"
       then inr (page "United flights" [])
  else inl Timeout.

(** A seed with a query string and a fragment. *)
Definition map_seed : string :=
  "https://www.flightaware.com/live/map?airline=UAL#top".

(** The record that [extract_page_data] builds for the page at [map_seed]. *)
Definition map_record : PageRecord :=
  {| url := map_seed; title := "FlightAware"; content := "United flights";
     metadata := ∅; flight_info := None |}.

(** CPython's [urlparse] and [urljoin] for the examples.  No URL below has
    a host with both square brackets or with a character outside ASCII, so
    the two library tests are never asked; they are answered here by
    raising, so that a run that asked one of them would not go through. *)
Definition lib : Urllib.Lib :=
  Urllib.CPython.lib (fun _ => false) (fun _ => false).

(** The state of the default crawl of [web] after [k] iterations. *)
Definition crawl (k : nat) : option Loop :=
  steps (urllib := lib) web k (start (init NoUrls 100)).

(** A seed page with an anchor whose host opens a square bracket and does
    not close it, and a second seed. *)
Definition bracket_page : Soup :=
  page "Gate information" ["/live/"; "http://[::1"].

Definition bracket_web (done : list Effect) (u : string)
  : RequestException + Soup :=
  if String.eqb u "https://www.flightaware.com/" then inr bracket_page
  else inr (page "Live flight tracking" []).

Definition bracket_seeds : BaseUrls :=
  UrlList ["https://www.flightaware.com/"; "https://www.flightaware.com/live/"].



(** A record with three meta tags, as the scraper writes it. *)
Definition about_item : Ingest.Item :=
  {| Ingest.item_url := Some "https://www.flightaware.com/about/";
     Ingest.item_title := Some "About FlightAware";
     Ingest.item_content := Some "FlightAware is a flight tracking company.";
     Ingest.item_metadata :=
       Some (<["keywords" := "flights, tracking"]>
             (<["og:title" := "About"]>
             (<["description" := "Company profile"]> ∅))) |}.

Definition manager : Ingest.Manager :=
  {| Ingest.json_file_name := "flightaware_data.json";
     Ingest.index_name := "flightaware-data";
     Ingest.embedding_model := "text-embedding-3-large" |}.

(** A splitter that cuts the bytes of a text in two halves; any splitter
    would do. *)
Definition halves (text : string) : list string :=
  let n := Nat.div2 (String.length text) in
  [String.substring 0 n text; String.substring n (String.length text - n) text].

(** A stream whose last message carries a list of blocks, not a text. *)
Definition block_stream (use_agent : bool) (message thread : string)
  : string + list Service.Event :=
  inr [Some [{| Service.msg_type := "human";
                Service.msg_content := Service.Text message |};
             {| Service.msg_type := "ai";
                Service.msg_content := Service.Blocks ["Delays are expected."] |}]].

(** A stream that raises. *)
Definition broken_stream (use_agent : bool) (message thread : string)
  : string + list Service.Event :=
  inl "Connection error.".

(** A rendering of [str(msg.content)]; only the tool messages are read
    through it. *)
Definition plain_str (c : Service.Content) : string :=
  match c with
  | Service.Text s => s
  | Service.Blocks parts => PyStr.join ", " parts
  end.

(** A one-line stand-in for the text of pydantic's [ValidationError]. *)
Definition pydantic_message (d : Service.ResponseData) : string :=
  "1 validation error for ChatResponse: response: Input should be a valid string".

Definition request : Service.ChatRequest :=
  {| Service.req_user_id := "user123";
     Service.req_query := "Is my flight late?";
     Service.req_use_agent := true |}.

(** A running service that remembers one exchange with [user123]. *)
Definition running : Service.World :=
  {| Service.system_initialized := true;
     Service.memory_saver :=
       {[ "user_user123" :=
            [{| Service.msg_type := "human";
                Service.msg_content := Service.Text "Is my flight late?" |};
             {| Service.msg_type := "ai";
                Service.msg_content := Service.Text "It is on time." |}] ]};
     Service.stdout := [] |}.

End Examples.

(* ===================================================================== *)
(** * Properties of the URL functions *)
(* ===================================================================== *)

Module UrllibTheory.

Import PyStr Urllib.
Local Open Scope list_scope.

Lemma contains_app c (a b : string) :
  contains c (a ++ b)%string = contains c a || contains c b.
Proof.
  induction a as [|x a IH]; simpl; [done|]. by rewrite IH, orb_assoc.
Qed.

(** Neither half of [break_at] has a character that the text lacks, and the
    first half has none at which the scan stops. *)
Lemma break_at_contains stop c s :
  (contains c (break_at stop s).1 = true → contains c s = true ∧ stop c = false)
  ∧ (contains c (break_at stop s).2 = true → contains c s = true).
Proof.
  induction s as [|a s [IH1 IH2]]; simpl; [done|].
  destruct (stop a) eqn:Hstop; simpl; [done|].
  destruct (break_at stop s) as [pre post]. simpl in *. split.
  - destruct (Ascii.eqb a c) eqn:Hac; simpl.
    + apply Ascii.eqb_eq in Hac as ->. done.
    + intros H. by apply IH1.
  - intros H. rewrite (IH2 H). apply orb_true_r.
Qed.

Lemma split_once_contains d c s pre post :
  split_once d s = Some (pre, post) →
  (contains c pre = true → contains c s = true ∧ c ≠ d)
  ∧ (contains c post = true → contains c s = true).
Proof.
  unfold split_once. pose proof (break_at_contains (Ascii.eqb d) c s) as [H1 H2].
  destruct (break_at (Ascii.eqb d) s) as [p q]. destruct q as [|x q]; [done|].
  intros [= <- <-]. simpl in *. split.
  - intros H. destruct (H1 H) as [Hs Hne]. split; [done|].
    intros ->. by rewrite Ascii.eqb_refl in Hne.
  - intros H. apply H2. rewrite H. apply orb_true_r.
Qed.

Lemma split_once_None d s : split_once d s = None → contains d s = false.
Proof.
  unfold split_once. induction s as [|a s IH]; simpl; [done|].
  destruct (Ascii.eqb d a) eqn:Hda; simpl; [done|].
  destruct (break_at (Ascii.eqb d) s) as [p q]. destruct q; [|done].
  intros _. rewrite Ascii.eqb_sym, Hda. simpl. by apply IH.
Qed.



Lemma split_on_contains c d s seg :
  seg ∈ split_on d s → contains c seg = true → contains c s = true.
Proof.
  revert seg. induction s as [|a s IH]; simpl; intros seg Hin Hc.
  - apply list_elem_of_singleton in Hin. by subst.
  - destruct (Ascii.eqb a d) eqn:Had.
    + apply elem_of_cons in Hin as [->|Hin]; [done|].
      rewrite (IH seg Hin Hc). apply orb_true_r.
    + destruct (split_on d s) as [|f fs] eqn:Hs.
      * apply list_elem_of_singleton in Hin. subst. simpl in Hc.
        rewrite orb_false_r in Hc. by rewrite Hc.
      * apply elem_of_cons in Hin as [->|Hin].
        -- simpl in Hc. apply orb_true_iff in Hc as [Hc|Hc]; [by rewrite Hc|].
           rewrite (IH f); [apply orb_true_r|apply list_elem_of_here|done].
        -- rewrite (IH seg); [apply orb_true_r| |done].
           by apply list_elem_of_further.
Qed.

Lemma join_contains c sep l :
  contains c (join sep l) = true →
  contains c sep = true ∨ ∃ seg, seg ∈ l ∧ contains c seg = true.
Proof.
  induction l as [|p l IH]; simpl; [done|].
  destruct l as [|q l].
  - intros H. right. exists p. split; [apply list_elem_of_here|done].
  - rewrite !contains_app. intros H.
    apply orb_true_iff in H as [H|H].
    + right. exists p. split; [apply list_elem_of_here|done].
    + apply orb_true_iff in H as [H|H]; [by left|].
      destruct (IH H) as [?|(seg & Hin & Hseg)]; [by left|].
      right. exists seg. split; [by apply list_elem_of_further|done].
Qed.

Lemma filter_str_contains p c s :
  contains c (filter_str p s) = true → contains c s = true.
Proof.
  induction s as [|a s IH]; simpl; [done|].
  destruct (p a); simpl.
  - intros H. apply orb_true_iff in H as [->|H]; [done|].
    rewrite (IH H). apply orb_true_r.
  - intros H. rewrite (IH H). apply orb_true_r.
Qed.

Lemma lstrip_contains p c s :
  contains c (lstrip p s) = true → contains c s = true.
Proof.
  induction s as [|a s IH]; simpl; [done|].
  destruct (p a); [|done]. intros H. rewrite (IH H). apply orb_true_r.
Qed.

Lemma elem_of_removelast {A} (l : list A) x : x ∈ removelast l → x ∈ l.
Proof.
  induction l as [|a l IH]; simpl; [done|]. destruct l as [|b l].
  - intros H. by apply elem_of_nil in H.
  - intros H. apply elem_of_cons in H as [->|H]; [apply list_elem_of_here|].
    apply list_elem_of_further. by apply IH.
Qed.

Lemma elem_of_last {A} (l : list A) d : l ≠ [] → List.last l d ∈ l.
Proof.
  induction l as [|a l IH]; [done|]. intros _. destruct l as [|b l].
  - apply list_elem_of_here.
  - apply list_elem_of_further. by apply IH.
Qed.

Lemma split_on_nonempty d s : split_on d s ≠ [].
Proof.
  destruct s as [|a s]; simpl; [done|].
  destruct (Ascii.eqb a d); [done|]. by destruct (split_on d s).
Qed.

Lemma scheme_has_no_delimiter c s :
  opens_query_or_fragment c →
  forallb_str CPython.scheme_char s = true → contains c (lower s) = false.
Proof.
  intros Hc. induction s as [|a s IH]; simpl; [done|].
  intros H. apply andb_true_iff in H as [Ha Hs]. rewrite (IH Hs), orb_false_r.
  destruct Hc as [->| ->];
    destruct a as [[] [] [] [] [] [] [] []]; try done; by vm_compute in Ha.
Qed.



(** [urlparse], when it returns, leaves neither [?] nor [#] in the
    scheme, the host or the path: the scheme is made of scheme characters,
    the host stops at the first of [/ ? #], and the path is what remains
    once the fragment and the query are cut off. *)
Lemma urlparse_no_delimiter bracketed_host_ok nfkc_ok c url p :
  opens_query_or_fragment c →
  CPython.urlparse bracketed_host_ok nfkc_ok url = Some p →
  contains c (scheme p) = false
  ∧ contains c (netloc p) = false
  ∧ contains c (path p) = false.
Proof.
  intros Hc. unfold CPython.urlparse, CPython.urlparse_with, CPython.urlsplit.
  set (u0 := filter_str _ (lstrip _ url)).
  (* scheme *)
  assert (Hscheme : contains c (CPython.split_scheme (filter_str
            (fun c => negb (CPython.unsafe_byte c)) EmptyString) u0).1 = false).
  { unfold CPython.split_scheme. simpl.
    destruct (break_at CPython.is_colon u0) as [[|a pre] [|x rest]]; try done.
    destruct (CPython.is_alpha a && _) eqn:Hs; [|done].
    apply andb_true_iff in Hs as [_ Hs].
    by apply (scheme_has_no_delimiter c (String a pre)). }
  destruct (CPython.split_scheme _ u0) as [sch u1]. simpl in Hscheme.
  (* host *)
  assert (Hnetloc : contains c (CPython.split_netloc u1).1 = false).
  { unfold CPython.split_netloc.
    destruct u1 as [|x1 [|x2 r]]; try done.
    destruct (Ascii.eqb x1 "/" && Ascii.eqb x2 "/"); [|done].
    destruct (contains c (break_at _ r).1) eqn:Hin; [|done].
    apply break_at_contains in Hin as [_ Hstop].
    destruct Hc as [->| ->]; by vm_compute in Hstop. }
  destruct (CPython.split_netloc u1) as [nl u2]. simpl in Hnetloc.
  destruct (negb (CPython.brackets_ok bracketed_host_ok nl)); [done|].
  (* path *)
  set (u3 := match split_once "#" u2 with Some (u, f) => (u, f) | None => (u2, EmptyString) end).
  assert (Hfrag : contains "#" u3.1 = false).
  { subst u3. destruct (split_once "#" u2) as [[u f]|] eqn:Hsp; simpl.
    - destruct (contains "#" u) eqn:Hin; [|done].
      by apply (split_once_contains _ _ _ _ _ Hsp) in Hin as [_ ?].
    - by apply split_once_None. }
  destruct u3 as [u3 frag]. simpl in Hfrag.
  set (u4 := match split_once "?" u3 with Some (u, q) => (u, q) | None => (u3, EmptyString) end).
  assert (Hpath : ∀ d, opens_query_or_fragment d → contains d u4.1 = false).
  { intros d Hd. subst u4.
    destruct (split_once "?" u3) as [[u q]|] eqn:Hsp; simpl.
    - destruct (contains d u) eqn:Hin; [|done].
      apply (split_once_contains _ _ _ _ _ Hsp) in Hin as [Hin Hne].
      destruct Hd as [->| ->]; [done|congruence].
    - destruct Hd as [->| ->]; [by apply split_once_None|done]. }
  destruct u4 as [u4 qry]. simpl in Hpath.
  destruct (negb (CPython.checknetloc nfkc_ok nl)); [done|].
  assert (Hparams : contains c (CPython.splitparams u4).1 = false).
  { unfold CPython.splitparams.
    destruct (split_once ";" (List.last (split_on "/" u4) EmptyString))
      as [[seg prm]|] eqn:Hsp; simpl; [|by apply Hpath].
    destruct (contains c (join "/" _)) eqn:Hin; [|done].
    apply join_contains in Hin as [Hin|(s & Hs & Hin)].
    - destruct Hc as [->| ->]; done.
    - rewrite <- (Hpath c Hc). symmetry.
      apply elem_of_app in Hs as [Hs|Hs].
      + apply elem_of_removelast in Hs. by eapply split_on_contains.
      + apply list_elem_of_singleton in Hs. subst s.
        apply (split_once_contains _ _ _ _ _ Hsp) in Hin as [Hin _].
        eapply split_on_contains; [|exact Hin].
        apply elem_of_last, split_on_nonempty. }
  destruct (str_in sch CPython.uses_params && contains ";" u4).
  - destruct (CPython.splitparams u4) as [p' prm]. simpl in *.
    intros [= <-]. done.
  - intros [= <-]. simpl. repeat split; try done. by apply Hpath.
Qed.

End UrllibTheory.
(* ===================================================================== *)
(** * Properties of the scraper *)
(* ===================================================================== *)

Module ScraperTheory.

Import PyStr Scraper.
Local Open Scope list_scope.

Section WithWorld.

Context {urllib : Urllib.Lib}.
Variable http_get : list Effect -> string -> RequestException + Soup.

Local Abbreviation visited st := (visited_urls (self st)).
Local Abbreviation results st := (scraped_data (self st)).

(** *** Link extraction *)

(** What one anchor adds, when nothing raises. *)
Lemma add_link_Some visited cur links href links' :
  add_link visited cur links href = Some links' →
  ∃ absolute_url clean valid,
    Urllib.urljoin cur href = Some absolute_url
    ∧ clean_url absolute_url = Some clean
    ∧ is_valid_url clean = Some valid
    ∧ links' = if valid && bool_decide (clean ∉ visited)
               then {[clean]} ∪ links else links.
Proof.
  unfold add_link.
  destruct (Urllib.urljoin cur href) as [absolute_url|] eqn:Hj; simpl; [|done].
  destruct (clean_url absolute_url) as [clean|] eqn:Hc; simpl; [|done].
  destruct (is_valid_url clean) as [valid|] eqn:Hv; simpl; [|done].
  intros [= <-]. by exists absolute_url, clean, valid.
Qed.

Lemma elem_of_add_links visited cur hrefs acc links u :
  add_links visited cur hrefs acc = Some links →
  u ∈ links ↔
  u ∈ acc ∨
  ∃ href absolute_url,
    href ∈ hrefs ∧ Urllib.urljoin cur href = Some absolute_url
    ∧ clean_url absolute_url = Some u
    ∧ is_valid_url u = Some true ∧ u ∉ visited.
Proof.
  revert acc. induction hrefs as [|h hrefs IH]; intros acc; simpl.
  - intros [= <-]. split; [auto|]. intros [?|(href & a & Hin & _)]; [done|].
    by apply elem_of_nil in Hin.
  - destruct (add_link visited cur acc h) as [acc'|] eqn:Hadd; simpl; [|done].
    intros Hrest. rewrite (IH _ Hrest).
    apply add_link_Some in Hadd as (a & clean & valid & Hj & Hc & Hv & ->).
    split.
    + intros [Hu|(href & a' & Hin & ?)].
      * destruct (valid && bool_decide (clean ∉ visited)) eqn:Hok; [|by left].
        apply andb_true_iff in Hok as [-> Hn]. apply bool_decide_eq_true in Hn.
        apply elem_of_union in Hu as [Hu|Hu]; [|by left].
        apply elem_of_singleton in Hu. subst u. right.
        exists h, a. split; [apply list_elem_of_here|done].
      * right. exists href, a'. split; [by apply list_elem_of_further|done].
    + intros [Hu|(href & a' & Hin & Hj' & Hc' & Hv' & Hn)].
      * left. destruct (valid && _); [set_solver|done].
      * apply elem_of_cons in Hin as [->|Hin].
        -- left. assert (a' = a) as -> by congruence.
           assert (clean = u) as -> by congruence.
           assert (valid = true) as -> by congruence.
           rewrite bool_decide_eq_true_2 by done. simpl. set_solver.
        -- right. by exists href, a'.
Qed.

(** Whether an anchor makes [add_link] raise does not depend on the links
    collected so far. *)
Lemma add_link_None visited cur links links' href :
  add_link visited cur links href = None →
  add_link visited cur links' href = None.
Proof.
  unfold add_link.
  destruct (Urllib.urljoin cur href) as [a|]; simpl; [|done].
  destruct (clean_url a) as [c|]; simpl; [|done].
  by destruct (is_valid_url c).
Qed.

Lemma add_links_None visited cur hrefs acc :
  add_links visited cur hrefs acc = None ↔
  ∃ href, href ∈ hrefs ∧ ∀ links, add_link visited cur links href = None.
Proof.
  revert acc. induction hrefs as [|h hrefs IH]; intros acc; simpl.
  - split; [done|]. intros (href & Hin & _). by apply elem_of_nil in Hin.
  - destruct (add_link visited cur acc h) as [acc'|] eqn:Hadd; simpl.
    + rewrite IH. split.
      * intros (href & Hin & Hraise). exists href.
        split; [by apply list_elem_of_further|done].
      * intros (href & Hin & Hraise).
        apply elem_of_cons in Hin as [->|Hin]; [by rewrite Hraise in Hadd|].
        by exists href.
    + split; [|done]. intros _. exists h. split; [apply list_elem_of_here|].
      intros links. by apply (add_link_None _ _ acc).
Qed.

Lemma is_valid_url_spec u :
  is_valid_url u = Some true ↔
  ∃ p, Urllib.urlparse u = Some p
       ∧ (Urllib.netloc p = "www.flightaware.com"
          ∨ Urllib.netloc p = "flightaware.com").
Proof.
  unfold is_valid_url. destruct (Urllib.urlparse u) as [p|]; simpl.
  - split.
    + intros [= H]. exists p. split; [done|].
      by rewrite orb_true_iff, !String.eqb_eq in H.
    + intros (p' & [= <-] & H). f_equal.
      by rewrite orb_true_iff, !String.eqb_eq.
  - split; [done|]. by intros (p & ? & _).
Qed.

(** *** One iteration of the loop *)

Lemma loop_body_skip st u rest :
  u ∈ visited st →
  loop_body http_get st u rest
  = Normal {| self := self st; urls_to_visit := rest; effects := effects st |}.
Proof.
  intros Hin. unfold loop_body. by rewrite bool_decide_eq_true_2.
Qed.

(** What an iteration that visits [u] does to [self], whatever its
    outcome: [u] joins the visited set, and at most one record, for [u] and
    with a text, is added. *)
Lemma loop_body_self st u rest :
  u ∉ visited st →
  let st' := state (loop_body http_get st u rest) in
  visited st' = {[u]} ∪ visited st
  ∧ max_pages (self st') = max_pages (self st)
  ∧ base_urls (self st') = base_urls (self st)
  ∧ (effects st' = effects st ++ [Get u; Sleep 1]
     ∨ effects st' = effects st ++ [Get u])
  ∧ ((∃ e, http_get (effects st) u = inl e ∧ results st' = results st)
     ∨ (∃ soup, http_get (effects st) u = inr soup
           ∧ (results st' = results st
              ∨ ∃ d, extract_page_data (Some soup) u = Some d
                     ∧ truthy (content d) = true
                     ∧ results st' = results st ++ [d]))).
Proof.
  intros Hnin. unfold loop_body. rewrite bool_decide_eq_false_2 by done.
  unfold get_page_content.
  destruct (http_get (effects st) u) as [e|soup] eqn:Hget; simpl.
  - repeat split; try done; [by left|]. left. by exists e.
  - destruct (truthy (join " " (split_ws (soup_text soup)))) eqn:Htr; simpl.
    + destruct (add_links _ _ _ _); simpl;
        (split; [done|]); (split; [done|]); (split; [done|]);
        (split; [by (left + right)|]); right; exists soup; (split; [done|]);
        right; eexists; repeat split; done.
    + destruct (add_links _ _ _ _); simpl;
        (split; [done|]); (split; [done|]); (split; [done|]);
        (split; [by (left + right)|]); right; exists soup; (split; [done|]);
        by left.
Qed.

(** An iteration that visits [u] and ends normally: the queue and the
    effects, by the outcome of the fetch. *)
Lemma loop_body_visit st u rest st' :
  u ∉ visited st →
  loop_body http_get st u rest = Normal st' →
  effects st' = effects st ++ [Get u; Sleep 1]
  ∧ ((∃ e, http_get (effects st) u = inl e ∧ urls_to_visit st' = rest)
     ∨ (∃ soup links,
          http_get (effects st) u = inr soup
          ∧ extract_links (visited st') (Some soup) u = Some links
          ∧ urls_to_visit st' = rest ++ elements links)).
Proof.
  intros Hnin. unfold loop_body. rewrite bool_decide_eq_false_2 by done.
  unfold get_page_content.
  destruct (http_get (effects st) u) as [e|soup] eqn:Hget; simpl.
  - intros [= <-]. split; [done|]. left. by exists e.
  - destruct (truthy (join " " (split_ws (soup_text soup)))) eqn:Htr; simpl.
    + destruct (add_links _ _ _ _) as [links|] eqn:Hl; [|done].
      intros [= <-]. split; [done|]. right. by exists soup, links.
    + destruct (add_links _ _ _ _) as [links|] eqn:Hl; [|done].
      intros [= <-]. split; [done|]. right. by exists soup, links.
Qed.

(** An iteration that [ValueError] leaves: the page was fetched, link
    extraction raised, nothing was queued and there was no sleep. *)
Lemma loop_body_raises st u rest st' :
  loop_body http_get st u rest = ValueError st' →
  (u ∉ visited st)
  ∧ effects st' = effects st ++ [Get u]
  ∧ urls_to_visit st' = rest
  ∧ ∃ soup, http_get (effects st) u = inr soup
            ∧ extract_links (visited st') (Some soup) u = None.
Proof.
  unfold loop_body. case_bool_decide as Hin; [done|].
  unfold get_page_content.
  destruct (http_get (effects st) u) as [e|soup] eqn:Hget; simpl; [done|].
  destruct (truthy (join " " (split_ws (soup_text soup)))) eqn:Htr; simpl.
  - destruct (add_links _ _ _ _) as [links|] eqn:Hl; [done|].
    intros [= <-]. repeat split; try done. by exists soup.
  - destruct (add_links _ _ _ _) as [links|] eqn:Hl; [done|].
    intros [= <-]. repeat split; try done. by exists soup.
Qed.

Lemma step_Some st o :
  step http_get st = Some o →
  ∃ u rest, urls_to_visit st = u :: rest
            ∧ (Z.of_nat (size (visited st)) < max_pages (self st))%Z
            ∧ o = loop_body http_get st u rest.
Proof.
  unfold step, loop_guard. destruct (urls_to_visit st) as [|u rest]; [done|].
  simpl. case_bool_decide; [|done]. intros [= <-]. by exists u, rest.
Qed.

Lemma step_None st :
  step http_get st = None ↔
  urls_to_visit st = [] ∨ (max_pages (self st) ≤ Z.of_nat (size (visited st)))%Z.
Proof.
  unfold step, loop_guard. destruct (urls_to_visit st) as [|u rest].
  - split; [by left|done].
  - simpl. case_bool_decide; split; try done.
    + intros [?|?]; [done|lia].
    + intros _. right. lia.
Qed.

(** *** Runs: [steps] and [while_loop] *)

Lemma steps_ind (P : Loop → Prop) st0 :
  P st0 →
  (∀ a b, P a → step http_get a = Some (Normal b) → P b) →
  ∀ k st, steps http_get k st0 = Some st → P st.
Proof.
  intros H0 Hstep k. revert st0 H0.
  induction k as [|k IH]; intros st0 H0 st; simpl.
  - by intros [= <-].
  - destruct (step http_get st0) as [[st1|st1]|] eqn:Hs; [|done|done].
    apply IH. by eapply Hstep.
Qed.

(** A run that has ended made some iterations that ended normally, and
    then either found the guard false or made one more, which raised. *)
Lemma while_loop_steps fuel st o :
  while_loop http_get fuel st = Some o →
  ∃ k mid, steps http_get k st = Some mid
           ∧ match o with
             | Normal st' => mid = st' ∧ step http_get st' = None
             | ValueError st' => step http_get mid = Some (ValueError st')
             end.
Proof.
  revert st. induction fuel as [|n IH]; intros st; simpl.
  - destruct (step http_get st) as [[st1|st1]|] eqn:Hs; [done| |].
    + intros [= <-]. by exists 0, st.
    + intros [= <-]. by exists 0, st.
  - destruct (step http_get st) as [[st1|st1]|] eqn:Hs.
    + intros H. apply IH in H as (k & mid & Hk & Hend).
      exists (S k), mid. simpl. by rewrite Hs.
    + intros [= <-]. by exists 0, st.
    + intros [= <-]. by exists 0, st.
Qed.

(** The loop always ends, normally or with [ValueError]: each iteration
    that goes on either adds a URL to the visited set, of which the guard
    allows only so many, or shortens the queue and leaves the visited set
    alone. *)
Lemma while_loop_terminates st :
  ∃ fuel o, while_loop http_get fuel st = Some o.
Proof.
  remember (Z.to_nat (max_pages (self st) - Z.of_nat (size (visited st))))
    as budget eqn:Hb.
  revert st Hb. induction budget as [budget IHb] using lt_wf_ind.
  intros [s queue es]. revert s es.
  induction queue as [|u rest IHq]; intros s es Hb.
  - exists 0. eexists. simpl. done.
  - destruct (step http_get {| self := s; urls_to_visit := u :: rest; effects := es |})
      as [[st1|st1]|] eqn:Hs.
    + pose proof Hs as Hs'. apply step_Some in Hs' as (u' & rest' & Hq & Hlt & Hbody).
      simpl in Hq. injection Hq as <- <-. simpl in Hlt.
      destruct (decide (u ∈ visited_urls s)) as [Hin|Hnin].
      * rewrite loop_body_skip in Hbody by done. injection Hbody as ->.
        destruct (IHq s es) as (n & o & Hn); [done|].
        exists (S n), o. simpl. simpl in Hs. by rewrite Hs.
      * pose proof (loop_body_self
                      {| self := s; urls_to_visit := u :: rest; effects := es |}
                      u rest Hnin) as (Hv & Hm & _).
        rewrite <- Hbody in Hv, Hm. simpl in Hv, Hm.
        destruct (IHb (Z.to_nat (max_pages (self st1)
                                 - Z.of_nat (size (visited st1))))) with (st := st1)
          as (n & o & Hn); [|done|].
        -- rewrite Hv, Hm, size_union, size_singleton by set_solver.
           simpl in Hb. lia.
        -- exists (S n), o. simpl. simpl in Hs. by rewrite Hs.
    + exists 0. eexists. simpl. simpl in Hs. by rewrite Hs.
    + exists 0. eexists. simpl. simpl in Hs. by rewrite Hs.
Qed.

Lemma fetched_app es1 es2 : fetched (es1 ++ es2) = fetched es1 ++ fetched es2.
Proof. unfold fetched. by rewrite flat_map_app. Qed.

Lemma extract_page_data_url soup u d :
  extract_page_data (Some soup) u = Some d → url d = u.
Proof. by intros [= <-]. Qed.

(** What a run adds to a state: fetches of distinct URLs that were not
    visited before, which all join the visited set, and records for some of
    the fetched URLs, in the order of the fetches, each with a text. *)
Local Abbreviation extends a b :=
  (∃ es ds,
    effects b = effects a ++ es
    ∧ results b = results a ++ ds
    ∧ NoDup (fetched es)
    ∧ (∀ u, u ∈ fetched es → u ∉ visited a)
    ∧ visited b = visited a ∪ list_to_set (fetched es)
    ∧ map url ds `sublist_of` fetched es
    ∧ Forall (λ d, truthy (content d) = true) ds
    ∧ max_pages (self b) = max_pages (self a)
    ∧ base_urls (self b) = base_urls (self a)).

Lemma extends_refl a : extends a a.
Proof.
  exists [], []. rewrite !app_nil_r. simpl.
  repeat split; try done; [constructor|set_solver|set_solver].
Qed.

(** One iteration, whatever its outcome. *)
Lemma extends_step a o : step http_get a = Some o → extends a (state o).
Proof.
  intros Hs. apply step_Some in Hs as (u & rest & Hq & _ & ->).
  destruct (decide (u ∈ visited a)) as [Hin|Hnin].
  - rewrite loop_body_skip by done. simpl. apply extends_refl.
  - destruct (loop_body_self a u rest Hnin) as (Hv & Hm & Hb & He & Hr).
    set (b := state (loop_body http_get a u rest)) in *.
    assert (Hes : ∃ es, effects b = effects a ++ es ∧ fetched es = [u]).
    { destruct He as [He|He]; eexists; (split; [exact He|done]). }
    destruct Hes as (es & Hes & Hf).
    assert (Hds : ∃ ds, results b = results a ++ ds
              ∧ map url ds `sublist_of` [u]
              ∧ Forall (λ d, truthy (content d) = true) ds).
    { destruct Hr as [(e & _ & Hres)|(soup & _ & [Hres|(d & Hd & Ht & Hres)])].
      - exists []. rewrite app_nil_r. repeat split; [done| |constructor].
        apply sublist_nil_l.
      - exists []. rewrite app_nil_r. repeat split; [done| |constructor].
        apply sublist_nil_l.
      - exists [d]. split; [done|]. split.
        + simpl. by rewrite (extract_page_data_url _ _ _ Hd).
        + by repeat constructor. }
    destruct Hds as (ds & Hres & Hsub & Hc).
    exists es, ds. rewrite Hf. simpl.
    repeat split; try done.
    + apply NoDup_singleton.
    + intros x Hx. apply list_elem_of_singleton in Hx. by subst.
    + rewrite Hv. set_solver.
Qed.

Lemma extends_trans a b c : extends a b → extends b c → extends a c.
Proof.
  intros (es & ds & He & Hr & Hnd & Hfresh & Hv & Hsub & Hc & Hm & Hb)
         (es' & ds' & He' & Hr' & Hnd' & Hfresh' & Hv' & Hsub' & Hc' & Hm' & Hb').
  exists (es ++ es'), (ds ++ ds').
  rewrite He', He, Hr', Hr, Hv', Hv, Hm', Hm, Hb', Hb, !app_assoc, fetched_app.
  repeat split; try done.
  - apply NoDup_app. repeat split; [done| |done].
    intros x Hx Hx'. apply Hfresh' in Hx'. rewrite Hv in Hx'. set_solver.
  - intros x Hx. apply elem_of_app in Hx as [Hx|Hx]; [by apply Hfresh|].
    apply Hfresh' in Hx. rewrite Hv in Hx. set_solver.
  - set_solver.
  - rewrite map_app. by apply sublist_app.
  - by apply Forall_app.
Qed.

Lemma steps_extend k st st' :
  steps http_get k st = Some st' → extends st st'.
Proof.
  revert st'. apply steps_ind; [apply extends_refl|].
  intros a b Ha Hs. eapply extends_trans; [exact Ha|].
  exact (extends_step a (Normal b) Hs).
Qed.

(** From a new scraper the visited set is exactly the set of fetched URLs. *)
Lemma from_init seeds mp st :
  extends (start (init seeds mp)) st →
  NoDup (fetched (effects st))
  ∧ visited st = list_to_set (fetched (effects st))
  ∧ size (visited st) = length (fetched (effects st))
  ∧ map url (results st) `sublist_of` fetched (effects st)
  ∧ Forall (λ d, truthy (content d) = true) (results st)
  ∧ max_pages (self st) = mp.
Proof.
  intros (es & ds & He & Hr & Hnd & _ & Hv & Hsub & Hc & Hm & _).
  simpl in *. rewrite He, Hr, Hv, union_empty_l_L. simpl.
  repeat split; try done. by rewrite size_list_to_set.
Qed.

Lemma steps_from_init seeds mp k st :
  steps http_get k (start (init seeds mp)) = Some st →
  NoDup (fetched (effects st))
  ∧ visited st = list_to_set (fetched (effects st))
  ∧ size (visited st) = length (fetched (effects st))
  ∧ map url (results st) `sublist_of` fetched (effects st)
  ∧ Forall (λ d, truthy (content d) = true) (results st)
  ∧ max_pages (self st) = mp.
Proof. intros H. by apply (from_init seeds), (steps_extend k). Qed.

Lemma truthy_nonempty s : truthy s = true ↔ s ≠ "".
Proof. destruct s; simpl; split; congruence. Qed.

(** The ceiling holds after an iteration, whatever its outcome. *)
Lemma size_bound_step a o :
  (Z.of_nat (size (visited a)) ≤ max_pages (self a))%Z →
  step http_get a = Some o →
  (Z.of_nat (size (visited (state o))) ≤ max_pages (self (state o)))%Z.
Proof.
  intros Ha Hs. apply step_Some in Hs as (u & rest & Hq & Hlt & ->).
  destruct (decide (u ∈ visited a)) as [Hin|Hnin].
  - by rewrite loop_body_skip.
  - destruct (loop_body_self a u rest Hnin) as (Hv & Hm & _).
    rewrite Hv, Hm, size_union, size_singleton by set_solver. lia.
Qed.

Lemma size_bound_steps st0 k st :
  (Z.of_nat (size (visited st0)) ≤ max_pages (self st0))%Z →
  steps http_get k st0 = Some st →
  (Z.of_nat (size (visited st)) ≤ max_pages (self st))%Z.
Proof.
  intros H0. revert st. apply steps_ind; [done|].
  intros a b Ha Hs. exact (size_bound_step a (Normal b) Ha Hs).
Qed.

(** Every URL that is queued or visited is a seed or a link. *)
Lemma queued_is_seed_or_link seeds mp k st :
  steps http_get k (start (init seeds mp)) = Some st →
  ∀ u, u ∈ urls_to_visit st ∨ u ∈ visited st →
       u ∈ base_urls (init seeds mp) ∨ is_link u.
Proof.
  apply (steps_ind (λ st, ∀ u, u ∈ urls_to_visit st ∨ u ∈ visited st →
                             u ∈ base_urls (init seeds mp) ∨ is_link u)).
  - simpl. intros u [Hu|Hu]; [by left|set_solver].
  - intros a b Ha Hs. apply step_Some in Hs as (u & rest & Hq & Hlt & Hbody).
    symmetry in Hbody.
    assert (Hhead : u ∈ base_urls (init seeds mp) ∨ is_link u).
    { apply Ha. left. rewrite Hq. apply list_elem_of_here. }
    assert (Hrest : ∀ x, x ∈ rest → x ∈ base_urls (init seeds mp) ∨ is_link x).
    { intros x Hx. apply Ha. left. rewrite Hq. by apply list_elem_of_further. }
    destruct (decide (u ∈ visited a)) as [Hin|Hnin].
    + rewrite loop_body_skip in Hbody by done. injection Hbody as <-. simpl.
      intros x [Hx|Hx]; [by apply Hrest|apply Ha; by right].
    + destruct (loop_body_self a u rest Hnin) as (Hv & _).
      rewrite Hbody in Hv. simpl in Hv.
      destruct (loop_body_visit a u rest b Hnin Hbody) as (_ & Hcase).
      intros x [Hx|Hx].
      * destruct Hcase as [(e & _ & Hq')|(soup & links & _ & Hlinks & Hq')];
          rewrite Hq' in Hx; [by apply Hrest|].
        apply elem_of_app in Hx as [Hx|Hx]; [by apply Hrest|].
        apply elem_of_elements in Hx. simpl in Hlinks.
        apply (elem_of_add_links _ _ _ _ _ x Hlinks) in Hx
          as [Hx|(href & abs & _ & Hj & Hc & Hval & _)]; [set_solver|].
        right. by exists u, href, abs.
      * rewrite Hv in Hx. apply elem_of_union in Hx as [Hx|Hx].
        -- apply elem_of_singleton in Hx. by subst.
        -- apply Ha. by right.
Qed.

(** A run that has ended went through states reached by iterations that
    ended normally, and its last state extends the first. *)
Lemma while_loop_extend fuel st o :
  while_loop http_get fuel st = Some o → extends st (state o).
Proof.
  intros H. apply while_loop_steps in H as (k & mid & Hk & Hend).
  apply steps_extend in Hk. destruct o as [st'|st']; simpl.
  - by destruct Hend as [<- _].
  - eapply extends_trans; [exact Hk|]. exact (extends_step mid _ Hend).
Qed.

(** Every URL visited when a run has ended is a seed or a link. *)
Lemma visited_is_seed_or_link seeds mp fuel o :
  scrape http_get fuel (init seeds mp) = Some o →
  ∀ u, u ∈ visited (state o) → u ∈ base_urls (init seeds mp) ∨ is_link u.
Proof.
  intros H u Hu. apply while_loop_steps in H as (k & mid & Hk & Hend).
  pose proof (queued_is_seed_or_link _ _ _ _ Hk) as Hmid.
  destruct o as [st'|st']; simpl in *.
  - destruct Hend as [<- _]. apply Hmid. by right.
  - pose proof Hend as Hs.
    apply step_Some in Hs as (x & rest & Hq & _ & Hbody). symmetry in Hbody.
    destruct (loop_body_raises _ _ _ _ Hbody) as (Hnin & _).
    destruct (loop_body_self mid x rest Hnin) as (Hv & _).
    rewrite Hbody in Hv. simpl in Hv. rewrite Hv in Hu.
    apply elem_of_union in Hu as [Hu|Hu].
    + apply elem_of_singleton in Hu. subst u. apply Hmid. left.
      rewrite Hq. apply list_elem_of_here.
    + apply Hmid. by right.
Qed.

(** *** The claims *)

(** C1 (as the code has it).  When [extract_links] returns, it returns
    exactly the URLs [scheme://netloc/path] of the resolved anchors of the
    page whose host is literally [www.flightaware.com] or [flightaware.com]
    and which are not in the visited set.  The two hosts are fixed in
    [is_valid_url]; neither the seed nor the current URL takes part in the
    test, and no other host, subdomain or not, passes it.  It does not
    return exactly when [urljoin] or [urlparse] raises on some anchor. *)
Theorem extract_links_flightaware_hosts
    (visited : gset string) (soup : option Soup) (current_url : string) :
  (∀ links u,
     extract_links visited soup current_url = Some links →
     u ∈ links ↔
     ∃ page href absolute_url parsed,
       soup = Some page ∧ href ∈ soup_hrefs page
       ∧ Urllib.urljoin current_url href = Some absolute_url
       ∧ clean_url absolute_url = Some u
       ∧ Urllib.urlparse u = Some parsed
       ∧ (Urllib.netloc parsed = "www.flightaware.com"
          ∨ Urllib.netloc parsed = "flightaware.com")
       ∧ u ∉ visited)
  ∧ (extract_links visited soup current_url = None ↔
     ∃ page href,
       soup = Some page ∧ href ∈ soup_hrefs page
       ∧ ∀ links, add_link visited current_url links href = None).
Proof.
  split.
  - intros links u. destruct soup as [page|]; simpl.
    + intros Hl. rewrite (elem_of_add_links _ _ _ _ _ u Hl). split.
      * intros [Hempty|(href & a & Hin & Hj & Hc & Hval & Hvis)]; [set_solver|].
        apply is_valid_url_spec in Hval as (p & Hp & Hhost).
        by exists page, href, a, p.
      * intros (page' & href & a & p & [= <-] & Hin & Hj & Hc & Hp & Hhost & Hvis).
        right. exists href, a. repeat split; try done.
        apply is_valid_url_spec. by exists p.
    + intros [= <-]. split; [set_solver|]. by intros (page & href & a & p & ? & _).
  - destruct soup as [page|]; simpl; [|split; [done|by intros (? & ? & ? & _)]].
    rewrite add_links_None. split.
    + intros (href & Hin & Hraise). by exists page, href.
    + intros (page' & href & [= <-] & Hin & Hraise). by exists href.
Qed.

(** C2.  In a run of a new scraper, after any number of iterations: the
    fetches so far are of pairwise distinct URLs, the visited set is the set
    of those URLs and has as many elements as there were fetches; and the
    next iteration, if there is one, pops the head [u] of the queue and
    either finds it visited and changes nothing but the queue (no fetch, no
    sleep), or adds [u], which was not visited, to the visited set, fetches
    it and sleeps; if link extraction raises, [u] was added and fetched all
    the same, once. *)
Theorem visited_once seeds mp k st :
  steps http_get k (start (init seeds mp)) = Some st →
  NoDup (fetched (effects st))
  ∧ visited st = list_to_set (fetched (effects st))
  ∧ size (visited st) = length (fetched (effects st))
  ∧ (∀ st', step http_get st = Some (Normal st') →
      ∃ u rest, urls_to_visit st = u :: rest ∧
        ((u ∈ visited st
          ∧ st' = {| self := self st; urls_to_visit := rest;
                     effects := effects st |})
         ∨ ((u ∉ visited st)
            ∧ visited st' = {[u]} ∪ visited st
            ∧ size (visited st') = S (size (visited st))
            ∧ effects st' = effects st ++ [Get u; Sleep 1])))
  ∧ (∀ st', step http_get st = Some (ValueError st') →
      ∃ u rest, urls_to_visit st = u :: rest
        ∧ (u ∉ visited st)
        ∧ visited st' = {[u]} ∪ visited st
        ∧ size (visited st') = S (size (visited st))
        ∧ effects st' = effects st ++ [Get u]
        ∧ NoDup (fetched (effects st'))).
Proof.
  intros H. destruct (steps_from_init _ _ _ _ H) as (Hnd & Hv & Hsz & _).
  split; [done|]. split; [done|]. split; [done|]. split.
  - intros st' Hs. apply step_Some in Hs as (u & rest & Hq & _ & Hbody).
    symmetry in Hbody. exists u, rest. split; [done|].
    destruct (decide (u ∈ visited st)) as [Hin|Hnin].
    + left. split; [done|]. rewrite loop_body_skip in Hbody by done.
      by injection Hbody as <-.
    + right. destruct (loop_body_self st u rest Hnin) as (Hv' & _).
      rewrite Hbody in Hv'. simpl in Hv'.
      destruct (loop_body_visit st u rest st' Hnin Hbody) as (He' & _).
      repeat split; try done.
      rewrite Hv', size_union, size_singleton by set_solver. done.
  - intros st' Hs. pose proof (extends_step _ _ Hs) as Hext.
    apply step_Some in Hs as (u & rest & Hq & _ & Hbody). symmetry in Hbody.
    destruct (loop_body_raises _ _ _ _ Hbody) as (Hnin & He' & _).
    destruct (loop_body_self st u rest Hnin) as (Hv' & _).
    rewrite Hbody in Hv'. simpl in Hv'.
    exists u, rest. repeat split; try done.
    + rewrite Hv', size_union, size_singleton by set_solver. done.
    + apply steps_extend in H.
      destruct (from_init seeds mp st' (extends_trans _ _ _ H Hext)) as (Hnd' & _).
      exact Hnd'.
Qed.

(** C3 (as the code has it).  For a page ceiling [max_pages >= 0]: after
    any number of iterations of a run of a new scraper there are at most as
    many records as visited URLs, and at most [max_pages] visited URLs.
    The run always ends: normally, with the queue empty or the visited set
    at the ceiling, or with the [ValueError] that link extraction raised on
    a page.  However it ends, the same bounds hold of the state it
    leaves. *)
Theorem crawl_bounds seeds mp :
  (0 ≤ mp)%Z →
  (∀ k st, steps http_get k (start (init seeds mp)) = Some st →
           (length (results st) ≤ size (visited st))%nat
           ∧ (Z.of_nat (size (visited st)) ≤ mp)%Z)
  ∧ (∃ fuel o, scrape http_get fuel (init seeds mp) = Some o)
  ∧ ∀ fuel o, scrape http_get fuel (init seeds mp) = Some o →
      (length (results (state o)) ≤ size (visited (state o)))%nat
      ∧ (Z.of_nat (size (visited (state o))) ≤ mp)%Z
      ∧ match o with
        | Normal st =>
            urls_to_visit st = [] ∨ Z.of_nat (size (visited st)) = mp
        | ValueError st =>
            ∃ k mid, steps http_get k (start (init seeds mp)) = Some mid
                     ∧ step http_get mid = Some (ValueError st)
        end.
Proof.
  intros Hmp.
  assert (Hext : ∀ st, extends (start (init seeds mp)) st →
            (length (results st) ≤ size (visited st))%nat).
  { intros st H. destruct (from_init _ _ _ H) as (_ & _ & Hsz & Hsub & _).
    rewrite Hsz, <- (length_map url). by apply sublist_length. }
  assert (H0 : (Z.of_nat (size (visited (start (init seeds mp))))
                ≤ max_pages (self (start (init seeds mp))))%Z).
  { change (Z.of_nat (size (∅ : gset string)) ≤ mp)%Z. rewrite size_empty. lia. }
  assert (Hinv : ∀ k st, steps http_get k (start (init seeds mp)) = Some st →
           (length (results st) ≤ size (visited st))%nat
           ∧ (Z.of_nat (size (visited st)) ≤ mp)%Z).
  { intros k st H. split; [by apply Hext, (steps_extend k)|].
    destruct (steps_from_init _ _ _ _ H) as (_ & _ & _ & _ & _ & Hm).
    rewrite <- Hm. by apply (size_bound_steps (start (init seeds mp)) k). }
  split; [done|]. split; [apply while_loop_terminates|].
  intros fuel o Hrun. split; [by apply Hext, (while_loop_extend fuel)|].
  apply while_loop_steps in Hrun as (k & mid & Hk & Hend).
  destruct (Hinv k mid Hk) as [_ Hsize].
  destruct (steps_from_init _ _ _ _ Hk) as (_ & _ & _ & _ & _ & Hm).
  destruct o as [st|st]; simpl.
  - destruct Hend as [<- Hend]. split; [done|].
    apply step_None in Hend. rewrite Hm in Hend.
    destruct Hend as [?|?]; [by left|right; lia].
  - split; [|by exists k, mid].
    pose proof (size_bound_step mid _ ltac:(by rewrite Hm) Hend) as Hb.
    destruct (extends_step _ _ Hend) as (_ & _ & _ & _ & _ & _ & _ & _ & _ & Hm' & _).
    simpl in Hb, Hm'. by rewrite Hm', Hm in Hb.
Qed.


(** C7.  A document that is absent yields no record with content; after any
    number of iterations of a run of a new scraper every record kept has a
    non-empty [content]; the run always ends, and however it ends, normally
    with the records returned or with a [ValueError], every record that
    [self.scraped_data] holds has a non-empty [content]. *)
Theorem results_have_content seeds mp :
  (∀ u, has_content (extract_page_data None u) = false)
  ∧ (∀ k st, steps http_get k (start (init seeds mp)) = Some st →
             Forall (λ d, content d ≠ "") (results st))
  ∧ (∃ fuel o, scrape http_get fuel (init seeds mp) = Some o)
  ∧ ∀ fuel o, scrape http_get fuel (init seeds mp) = Some o →
              Forall (λ d, content d ≠ "") (results (state o)).
Proof.
  assert (Hext : ∀ st, extends (start (init seeds mp)) st →
                       Forall (λ d, content d ≠ "") (results st)).
  { intros st H. destruct (from_init _ _ _ H) as (_ & _ & _ & _ & Hc & _).
    eapply Forall_impl; [exact Hc|]. intros d. by apply truthy_nonempty. }
  split; [done|]. split; [|split].
  - intros k st H. by apply Hext, (steps_extend k).
  - apply while_loop_terminates.
  - intros fuel o H. by apply Hext, (while_loop_extend fuel).
Qed.

(** C9 (as the code has it).  After any number of iterations of a run of a
    new scraper, and in the state in which the run ends, the [url] fields
    of the records are pairwise distinct and are, in order, among the URLs
    fetched; each is the dequeued URL as it stood in the queue: a seed
    exactly as the caller gave it, or a link built by [extract_links], that
    is [scheme://netloc/path] of a resolved anchor with one of the two
    FlightAware hosts. *)
Theorem record_urls_unique_seed_or_link seeds mp k st :
  steps http_get k (start (init seeds mp)) = Some st →
  NoDup (map url (results st))
  ∧ map url (results st) `sublist_of` fetched (effects st)
  ∧ (∀ d, d ∈ results st →
          url d ∈ base_urls (init seeds mp) ∨ is_link (url d))
  ∧ ∀ fuel o, scrape http_get fuel (init seeds mp) = Some o →
      NoDup (map url (results (state o)))
      ∧ map url (results (state o)) `sublist_of` fetched (effects (state o))
      ∧ ∀ d, d ∈ results (state o) →
             url d ∈ base_urls (init seeds mp) ∨ is_link (url d).
Proof.
  intros H.
  destruct (steps_from_init _ _ _ _ H) as (Hnd & Hv & _ & Hsub & _).
  split; [by eapply sublist_NoDup|]. split; [done|]. split.
  - intros d Hd. apply (queued_is_seed_or_link _ _ _ _ H). right.
    rewrite Hv. apply elem_of_list_to_set.
    eapply elem_of_sublist; [|exact Hsub]. by apply (list_elem_of_fmap_2 url).
  - intros fuel o Hrun.
    destruct (from_init seeds mp _ (while_loop_extend _ _ _ Hrun))
      as (Hnd' & Hv' & _ & Hsub' & _).
    split; [by eapply sublist_NoDup|]. split; [done|].
    intros d Hd. apply (visited_is_seed_or_link _ _ _ _ Hrun).
    rewrite Hv'. apply elem_of_list_to_set.
    eapply elem_of_sublist; [|exact Hsub']. by apply (list_elem_of_fmap_2 url).
Qed.

End WithWorld.

(** *** Links under CPython's [urlparse] *)

Section WithCPython.

Variables bracketed_host_ok nfkc_ok : string → bool.

Local Abbreviation cpython := (Urllib.CPython.lib bracketed_host_ok nfkc_ok).

(** What [clean_url] builds holds no [?] and no [#]: the query and the
    fragment are gone, whatever the argument. *)
Lemma clean_url_no_query_no_fragment absolute_url u :
  clean_url (urllib := cpython) absolute_url = Some u →
  contains "?" u = false ∧ contains "#" u = false.
Proof.
  unfold clean_url. simpl.
  destruct (Urllib.CPython.urlparse bracketed_host_ok nfkc_ok absolute_url)
    as [p|] eqn:Hp; simpl; [|done].
  intros [= <-].
  destruct (UrllibTheory.urlparse_no_delimiter _ _ "?" _ _ (or_introl eq_refl) Hp)
    as (Hs & Hn & Hpath).
  destruct (UrllibTheory.urlparse_no_delimiter _ _ "#" _ _ (or_intror eq_refl) Hp)
    as (Hs' & Hn' & Hpath').
  rewrite !UrllibTheory.contains_app, Hs, Hn, Hpath, Hs', Hn', Hpath'. done.
Qed.

Lemma link_no_query_no_fragment u :
  is_link (urllib := cpython) u → contains "?" u = false ∧ contains "#" u = false.
Proof.
  intros (current_url & href & a & _ & Hc & _).
  by apply (clean_url_no_query_no_fragment a).
Qed.

End WithCPython.

(** *** The theorems at work on the example webs *)

Section OnExamples.

Import Examples.

#[local] Existing Instance Examples.lib.

(** C1, counterexample.  The seed is the default one, on host
    [www.flightaware.com]; its page links to
    [https://flightaware.com/about?x=1#team]; called as [scrape] calls it,
    with the seed visited, [extract_links] returns
    [https://flightaware.com/about], whose host is not the seed's, and the
    first iteration of the crawl puts that URL in the queue. *)
Lemma extract_links_leaves_seed_host :
  base_urls (init NoUrls 100) = ["https://www.flightaware.com/"]
  ∧ (∃ links, extract_links {["https://www.flightaware.com/"]} (Some home)
                            "https://www.flightaware.com/" = Some links
              ∧ "https://flightaware.com/about" ∈ links)
  ∧ Urllib.netloc <$> Urllib.urlparse "https://flightaware.com/about"
    = Some "flightaware.com"
  ∧ Urllib.netloc <$> Urllib.urlparse "https://www.flightaware.com/"
    = Some "www.flightaware.com"
  ∧ Urllib.netloc <$> Urllib.urlparse "https://flightaware.com/about"
    ≠ Urllib.netloc <$> Urllib.urlparse "https://www.flightaware.com/"
  ∧ ∃ st, crawl 1 = Some st
          ∧ "https://flightaware.com/about" ∈ urls_to_visit st.
Proof.
  split; [reflexivity|]. split; [|split; [reflexivity|split; [reflexivity|split]]].
  - destruct (extract_links {["https://www.flightaware.com/"]} (Some home)
                            "https://www.flightaware.com/") as [links|] eqn:Hl;
      [|by vm_compute in Hl].
    exists links. split; [reflexivity|].
    assert (H : from_option
                  (λ l : gset string,
                     bool_decide ("https://flightaware.com/about" ∈ l)) false
                  (extract_links {["https://www.flightaware.com/"]} (Some home)
                                 "https://www.flightaware.com/") = true)
      by (by vm_compute).
    rewrite Hl in H. by apply bool_decide_eq_true in H.
  - vm_compute. discriminate.
  - destruct (crawl 1) as [st|] eqn:Hrun; [|by vm_compute in Hrun].
    exists st. split; [reflexivity|].
    vm_compute in Hrun. injection Hrun as <-.
    apply (bool_decide_unpack _). by vm_compute.
Qed.

(** C2, on the example web: after three iterations three URLs are visited,
    each fetched once. *)
Lemma visited_once_witness :
  ∃ st, crawl 3 = Some st
        ∧ NoDup (fetched (effects st))
        ∧ visited_urls (self st) = list_to_set (fetched (effects st))
        ∧ size (visited_urls (self st)) = 3.
Proof.
  destruct (crawl 3) as [st|] eqn:Hrun; [|by vm_compute in Hrun].
  exists st. split; [reflexivity|].
  destruct (visited_once web NoUrls 100 3 st Hrun) as (Hnd & Hv & Hsz & _).
  repeat split; [exact Hnd|exact Hv|].
  rewrite Hsz. vm_compute in Hrun. injection Hrun as <-. reflexivity.
Defined.

(** C3, counterexample.  With [max_pages = -1] the loop makes no iteration
    and [scrape] returns with no URL visited: 0 is not at most -1.  And on
    a web whose first seed page holds the anchor [http://[::1], the run
    ends in its first iteration with [ValueError], while the queue still
    holds the second seed and one URL of a hundred is visited: it has ended,
    and neither has the queue emptied nor is the ceiling reached. *)
Lemma crawl_bounds_fail :
  (∃ st, scrape web 0 (init NoUrls (-1)) = Some (Normal st)
         ∧ size (visited_urls (self st)) = 0
         ∧ max_pages (self st) = (-1)%Z
         ∧ ¬ (Z.of_nat (size (visited_urls (self st)))
              ≤ max_pages (self st))%Z)
  ∧ Urllib.urljoin "https://www.flightaware.com/" "http://[::1" = None
  ∧ ∃ st, scrape bracket_web 0 (init bracket_seeds 100) = Some (ValueError st)
          ∧ urls_to_visit st = ["https://www.flightaware.com/live/"]
          ∧ size (visited_urls (self st)) = 1
          ∧ max_pages (self st) = 100%Z
          ∧ effects st = [Get "https://www.flightaware.com/"].
Proof.
  split; [|split; [reflexivity|]].
  - eexists. split; [reflexivity|]. split; [reflexivity|].
    split; [reflexivity|]. vm_compute. by intros H.
  - destruct (scrape bracket_web 0 (init bracket_seeds 100)) as [[st|st]|] eqn:Hrun;
      [by vm_compute in Hrun| |by vm_compute in Hrun].
    exists st. split; [reflexivity|].
    vm_compute in Hrun. injection Hrun as <-. by vm_compute.
Qed.

(** C3, on the example web with the ceiling at two pages: the run ends
    normally with two URLs visited, the queue not yet empty, and one
    record. *)
Lemma crawl_bounds_witness :
  (0 ≤ 2)%Z
  ∧ ∃ fuel st, scrape web fuel (init NoUrls 2) = Some (Normal st)
      ∧ (urls_to_visit st = [] ∨ Z.of_nat (size (visited_urls (self st))) = 2%Z)
      ∧ (length (scraped_data (self st)) ≤ size (visited_urls (self st)))%nat
      ∧ (Z.of_nat (size (visited_urls (self st))) ≤ 2)%Z.
Proof.
  split; [lia|].
  destruct (crawl_bounds web NoUrls 2 ltac:(lia)) as (_ & _ & Hend).
  destruct (scrape web 2 (init NoUrls 2)) as [[st|st]|] eqn:Hrun;
    [|by vm_compute in Hrun|by vm_compute in Hrun].
  exists 2, st. split; [exact Hrun|].
  destruct (Hend 2 (Normal st) Hrun) as (Hlen & Hsize & Hstop).
  split; [exact Hstop|]. split; [exact Hlen|exact Hsize].
Defined.


(** C7, on the example web: the page without text is visited and leaves
    no record; the one record kept has a text. *)
Lemma results_have_content_witness :
  ∃ st, crawl 3 = Some st
        ∧ "https://www.flightaware.com/live/" ∈ visited_urls (self st)
        ∧ map url (scraped_data (self st)) = ["https://www.flightaware.com/"]
        ∧ Forall (λ d, content d ≠ "") (scraped_data (self st)).
Proof.
  destruct (crawl 3) as [st|] eqn:Hrun; [|by vm_compute in Hrun].
  exists st. split; [reflexivity|].
  destruct (results_have_content web NoUrls 100) as (_ & Hinv & _).
  split; [|split; [|exact (Hinv 3 st Hrun)]];
    vm_compute in Hrun; injection Hrun as <-.
  - apply (bool_decide_unpack _). by vm_compute.
  - reflexivity.
Defined.

(** C9, counterexample.  The caller gives the seed
    [https://www.flightaware.com/live/map?airline=UAL#top]; the run keeps a
    record whose [url] is that text, query and fragment included, while
    scheme, host and path alone are [https://www.flightaware.com/live/map]. *)
Lemma seed_record_keeps_query :
  ∃ st, scrape web 1 (init (UrlList [map_seed]) 100) = Some (Normal st)
        ∧ scraped_data (self st) = [map_record]
        ∧ url map_record = "https://www.flightaware.com/live/map?airline=UAL#top"
        ∧ Urllib.query <$> Urllib.urlparse (url map_record) = Some "airline=UAL"
        ∧ Urllib.fragment <$> Urllib.urlparse (url map_record) = Some "top"
        ∧ clean_url (url map_record) = Some "https://www.flightaware.com/live/map"
        ∧ clean_url (url map_record) ≠ Some (url map_record).
Proof.
  destruct (scrape web 1 (init (UrlList [map_seed]) 100)) as [[st|st]|] eqn:Hrun;
    [|by vm_compute in Hrun|by vm_compute in Hrun].
  exists st. split; [reflexivity|].
  vm_compute in Hrun. injection Hrun as <-.
  repeat split; try reflexivity. vm_compute. discriminate.
Qed.

(** C9, on the example web: the records after three iterations have
    distinct URLs, each a seed or a link. *)
Lemma record_urls_witness :
  ∃ st, crawl 3 = Some st
        ∧ NoDup (map url (scraped_data (self st)))
        ∧ ∀ d, d ∈ scraped_data (self st) →
               url d ∈ base_urls (init NoUrls 100) ∨ is_link (url d).
Proof.
  destruct (crawl 3) as [st|] eqn:Hrun; [|by vm_compute in Hrun].
  exists st. split; [reflexivity|].
  destruct (record_urls_unique_seed_or_link web NoUrls 100 3 st Hrun)
    as (Hnd & _ & Hform & _).
  split; [exact Hnd|exact Hform].
Defined.

End OnExamples.

End ScraperTheory.
(* ===================================================================== *)
(** * Properties of the ingestor *)
(* ===================================================================== *)

Module IngestTheory.

Import PyStr Ingest.
Local Open Scope list_scope.

Section WithSplitter.

Variable split_text : string → list string.
Variable mgr : Manager.

Local Abbreviation item_documents := (item_documents split_text mgr).
Local Abbreviation json_to_documents := (json_to_documents split_text mgr).
Local Abbreviation doc_metadata := (doc_metadata mgr).

(** The document built for a record before any splitting. *)
Local Abbreviation whole idx item :=
  {| page_content := full_content item; metadata := doc_metadata idx item |}.

Lemma elem_of_json_to_documents json_data d :
  d ∈ json_to_documents json_data ↔
  ∃ idx item, json_data !! idx = Some item ∧ d ∈ item_documents idx item.
Proof.
  unfold Ingest.json_to_documents.
  rewrite list_elem_of_In, in_concat. split.
  - intros (ds & Hds & Hd). apply list_elem_of_In in Hds, Hd.
    apply elem_of_lookup_imap in Hds as (i & item & -> & Hi).
    by exists i, item.
  - intros (i & item & Hi & Hd). exists (item_documents i item).
    rewrite <- !list_elem_of_In. split; [|done].
    by apply elem_of_lookup_imap_2.
Qed.

(** Split or not, every document of a record carries the metadata built
    for the record. *)
Lemma item_documents_metadata idx item d :
  d ∈ item_documents idx item → metadata d = doc_metadata idx item.
Proof.
  unfold Ingest.item_documents. destruct (Nat.ltb _ _).
  - unfold split_documents. simpl. rewrite app_nil_r.
    intros Hd. apply list_elem_of_fmap in Hd as (chunk & -> & _). done.
  - intros Hd. apply list_elem_of_singleton in Hd. by subst.
Qed.

(** The keys that [doc_metadata] can hold. *)
Lemma doc_metadata_keys idx item :
  dom (doc_metadata idx item)
  ⊆ {[ "source"; "file_type"; "url"; "title"; "record_index"; "index_name";
       "description"; "og_title" ]}.
Proof.
  unfold Ingest.doc_metadata. destruct (dict_truthy _);
    rewrite !dom_insert_L, dom_empty_L; set_solver.
Qed.

(** C5 (as the code has it).  Every document emitted for the record at
    position [idx], whether the record was split or not, carries the same
    metadata: the six entries [source] (the file name), [file_type], [url],
    [title], [record_index] ([idx]) and [index_name], and, when the record's
    own metadata is not empty, [description] and [og_title], taken from its
    keys [description] and [og:title] (the empty text when absent).  No other
    key of the record's metadata is carried over. *)
Theorem chunk_metadata_fields json_data d :
  d ∈ json_to_documents json_data →
  ∃ idx item,
    json_data !! idx = Some item
    ∧ d ∈ item_documents idx item
    ∧ metadata d = doc_metadata idx item
    ∧ metadata d !! "source" = Some (MStr (json_file_name mgr))
    ∧ metadata d !! "file_type" = Some (MStr "json")
    ∧ metadata d !! "url" = Some (MStr (default "Unknown" (item_url item)))
    ∧ metadata d !! "title" = Some (MStr (default "Unknown" (item_title item)))
    ∧ metadata d !! "record_index" = Some (MInt (Z.of_nat idx))
    ∧ metadata d !! "index_name" = Some (MStr (index_name mgr))
    ∧ (let md := default ∅ (item_metadata item) in
       if dict_truthy md
       then metadata d !! "description"
              = Some (MStr (default "" (md !! "description")))
            ∧ metadata d !! "og_title"
              = Some (MStr (default "" (md !! "og:title")))
       else metadata d !! "description" = None
            ∧ metadata d !! "og_title" = None)
    ∧ dom (metadata d)
      ⊆ {[ "source"; "file_type"; "url"; "title"; "record_index";
           "index_name"; "description"; "og_title" ]}.
Proof.
  intros Hd. apply elem_of_json_to_documents in Hd as (idx & item & Hi & Hd).
  exists idx, item. split; [done|]. split; [done|].
  rewrite (item_documents_metadata _ _ _ Hd). split; [done|].
  split; [|split; [|split; [|split; [|split; [|split; [|split]]]]]];
    try apply doc_metadata_keys;
    unfold Ingest.doc_metadata; simpl;
    destruct (dict_truthy (default ∅ (item_metadata item)));
    by simplify_map_eq.
Qed.


End WithSplitter.

Section OnExamples.

Import Examples.

(** C5, counterexample.  The record has the meta tags [description],
    [og:title] and [keywords]; the document emitted for it has neither the
    key [keywords] nor the key [og:title]. *)
Lemma keywords_not_carried_over :
  ∃ d, json_to_documents halves manager [about_item] = [d]
       ∧ page_content d = full_content about_item
       ∧ default ∅ (item_metadata about_item) !! "keywords"
         = Some "flights, tracking"
       ∧ metadata d !! "keywords" = None
       ∧ default ∅ (item_metadata about_item) !! "og:title" = Some "About"
       ∧ metadata d !! "og:title" = None
       ∧ metadata d !! "og_title" = Some (MStr "About").
Proof.
  eexists. split; [reflexivity|]. by vm_compute.
Qed.

(** C5, on the example record: its document carries the eight entries. *)
Lemma chunk_metadata_fields_witness :
  ∃ d, d ∈ json_to_documents halves manager [about_item]
       ∧ metadata d !! "record_index" = Some (MInt 0)
       ∧ metadata d !! "source" = Some (MStr "flightaware_data.json")
       ∧ metadata d !! "index_name" = Some (MStr "flightaware-data").
Proof.
  exists {| page_content := full_content about_item;
            metadata := Ingest.doc_metadata manager 0 about_item |}.
  assert (Hd : {| page_content := full_content about_item;
                  metadata := Ingest.doc_metadata manager 0 about_item |}
               ∈ json_to_documents halves manager [about_item]).
  { apply list_elem_of_singleton. reflexivity. }
  split; [exact Hd|].
  destruct (chunk_metadata_fields halves manager [about_item] _ Hd)
    as (idx & item & Hi & _ & _ & Hs & _ & _ & _ & Hr & Hn & _).
  destruct idx as [|idx]; [|by destruct idx].
  injection Hi as <-. repeat split; done.
Defined.


End OnExamples.

End IngestTheory.

(* ===================================================================== *)
(** * Properties of the chat service *)
(* ===================================================================== *)

Module ServiceTheory.

Import PyStr Service.
Local Open Scope list_scope.

Section WithCollaborators.

Variable stream : bool → string → string → string + list Event.
Variable now : Z.
Variable content_str : Content → string.
Variable validation_error : ResponseData → string.

Local Abbreviation get_response := (get_response stream now content_str).
Local Abbreviation chat_endpoint :=
  (chat_endpoint stream now content_str validation_error).

(** The body of [get_response] never leaves through its outer handler. *)
Lemma get_response_try_returns message user use_agent :
  ∃ d, get_response_try stream now content_str message user use_agent = inr d.
Proof.
  unfold get_response_try. destruct (stream _ _ _); [by eexists|].
  destruct (content_truthy _); by eexists.
Qed.

(** C6 (as the code has it).  For a request [request] and a state [w] of
    the service:
    - if the service is not initialized, the answer is the 503 with its
      fixed detail, and nothing else happens;
    - if initialization raised, the service is left running and not
      initialized, so that every request gets that 503;
    - if the stream raises [e], the answer is a response model with the
      fixed text [stream_failure_text], status code 500 in the body and no
      [error] entry: [e] is not passed on;
    - if building the response model raises [e], the answer is the 500
      whose detail is "Error processing your message: " followed by [e];
    - the outer handler of [get_response] answers with the fixed apology
      as [response] and with [e] itself as [error]. *)
Theorem chat_failure_responses request w :
  (system_initialized w = false →
   chat_endpoint request w
   = (HttpError 503
        "FlightAware system is not initialized. Please check server logs.", w))
  ∧ (∀ e, system_initialized (snd (lifespan (inl e) w)) = false
          ∧ memory_saver (snd (lifespan (inl e) w)) = memory_saver w
          ∧ chat_endpoint request (snd (lifespan (inl e) w))
            = (HttpError 503
                 "FlightAware system is not initialized. Please check server logs.",
               snd (lifespan (inl e) w)))
  ∧ (∀ e, system_initialized w = true →
          stream (req_use_agent request) (req_query request)
                 (thread_id (req_user_id request)) = inl e →
          chat_endpoint request w
          = (Ok {| user_id := req_user_id request;
                   query := req_query request;
                   response := stream_failure_text;
                   mode := if req_use_agent request then "agent" else "assistant";
                   data_source := Some "none";
                   source_urls := [];
                   timestamp := now;
                   error := None;
                   status_code := 500 |}, w))
  ∧ (∀ e, system_initialized w = true →
          make_chat_response validation_error
            (get_response (req_query request) (req_user_id request)
                          (req_use_agent request)) = inl e →
          chat_endpoint request w
          = (HttpError 500 ("Error processing your message: " ++ e)%string, w))
  ∧ (∀ e, rd_response (get_response_except now (req_query request)
                                           (req_user_id request) e)
          = Text apology_text
          ∧ rd_error (get_response_except now (req_query request)
                                          (req_user_id request) e)
            = Some e).
Proof.
  assert (H503 : ∀ w', system_initialized w' = false →
            chat_endpoint request w'
            = (HttpError 503
                 "FlightAware system is not initialized. Please check server logs.",
               w')).
  { intros w' Hw. unfold Service.chat_endpoint, bind, get_system_initialized.
    by rewrite Hw. }
  split; [by apply H503|]. split; [|split; [|split]].
  - intros e. split; [done|]. split; [done|]. by apply H503.
  - intros e Hinit Hstream.
    unfold Service.chat_endpoint, bind, get_system_initialized. rewrite Hinit. simpl.
    unfold Service.get_response, get_response_try. rewrite Hstream. simpl. done.
  - intros e Hinit Hbuild.
    unfold Service.chat_endpoint, bind, get_system_initialized. rewrite Hinit. simpl.
    by rewrite Hbuild.
  - intros e. by split.
Qed.

(** C10.  [clear_conversation] prints one line and changes nothing else:
    the checkpointer, hence the history of every user, the one named in the
    call included, and the initialization flag are as before. *)
Theorem clear_conversation_keeps_history user w :
  memory_saver (snd (clear_conversation user w)) = memory_saver w
  ∧ (∀ u, history (snd (clear_conversation user w)) u = history w u)
  ∧ history (snd (clear_conversation user w)) user = history w user
  ∧ system_initialized (snd (clear_conversation user w)) = system_initialized w
  ∧ stdout (snd (clear_conversation user w))
    = stdout w ++ [("🧹 Cleared conversation memory for user: " ++ user)%string].
Proof.
  unfold clear_conversation, print, history. simpl.
  repeat split; intros; reflexivity.
Qed.

End WithCollaborators.

Section OnExamples.

Import Examples.

(** C6, counterexample.  The service is running and the last message of
    the stream carries a list of blocks; building the response model
    raises, and the client receives the 500 whose detail ends with the text
    of that exception. *)
Lemma validation_error_reaches_client :
  system_initialized running = true
  ∧ request_error block_stream 0 plain_str pydantic_message request
    = Some (pydantic_message
              (get_response block_stream 0 plain_str "Is my flight late?"
                            "user123" true))
  ∧ fst (chat_endpoint block_stream 0 plain_str pydantic_message request running)
    = HttpError 500
        "Error processing your message: 1 validation error for ChatResponse: response: Input should be a valid string"
  ∧ Exists
      (λ text, substring_in
                 "1 validation error for ChatResponse: response: Input should be a valid string"
                 text = true)
      (visible_texts
         (fst (chat_endpoint block_stream 0 plain_str pydantic_message
                             request running))).
Proof.
  split; [reflexivity|]. split; [reflexivity|]. split; [reflexivity|].
  apply Exists_cons_hd. by vm_compute.
Qed.

(** C6, on a stream that raises: the client sees the fixed text and not
    the text of the exception. *)
Lemma chat_failure_responses_witness :
  system_initialized running = true
  ∧ broken_stream true "Is my flight late?" (thread_id "user123")
    = inl "Connection error."
  ∧ visible_texts
      (fst (chat_endpoint broken_stream 0 plain_str pydantic_message
                          request running))
    = [stream_failure_text]
  ∧ substring_in "Connection error." stream_failure_text = false.
Proof.
  split; [reflexivity|]. split; [reflexivity|].
  destruct (chat_failure_responses broken_stream 0 plain_str pydantic_message
              request running) as (_ & _ & Hstream & _).
  rewrite (Hstream "Connection error." eq_refl eq_refl).
  split; [reflexivity|]. by vm_compute.
Defined.

(** C10, on the example state: the exchange with [user123] is still there
    after the call. *)
Lemma clear_conversation_example :
  history (snd (clear_conversation "user123" running)) "user123"
  = history running "user123"
  ∧ length (history (snd (clear_conversation "user123" running)) "user123") = 2.
Proof.
  destruct (clear_conversation_keeps_history "user123" running)
    as (_ & _ & Hu & _).
  split; [exact Hu|]. rewrite Hu. by vm_compute.
Defined.

End OnExamples.

End ServiceTheory.
